(** * foundation-model-stack: the HF adapter glue, embedded in Rocq

    The development covers the three places of the repository that carry
    logic of their own:

    - [tests/models/hf/test_llama_hf.py], [TestLlamaHF._oss_hf_model]: the
      copy of an FMS LLaMA's weights into a Hugging Face [LlamaForCausalLM],
      with the rotary re-layout of the q and k projection weights;
    - [fms/models/hf/llama/configuration_llama_hf.py], [LLaMAHFConfig]:
      the constructor and [from_fms_config];
    - [scripts/inference.py], [pad_prompt].

    Tensors are contiguous row-major arrays with a shape; Python exceptions
    are values of an error monad; Python dictionaries and attribute
    dictionaries are finite maps from strings. *)

From stdpp Require Import base numbers list option strings gmap.
From Stdlib Require Import ZArith Lia.

Local Open Scope nat_scope.

(** ** Exceptions *)

(** The reasons for which the torch calls used here raise [RuntimeError]. *)
Inductive torch_error : Type :=
  | OnlyOneDimensionInferred   (* "only one dimension can be inferred" *)
  | InvalidShapeDimension      (* "invalid shape dimension d" *)
  | AmbiguousInferredDimension (* "... the unspecified dimension size -1 can be any value and is ambiguous" *)
  | ShapeInvalidForInputSize   (* "shape '[...]' is invalid for input of size n" *)
  | ShapesNotBroadcastable.    (* copy_: source does not broadcast to the destination *)

Inductive exn : Type :=
  | RuntimeError (why : torch_error)
  | IndexError
  | KeyError (key : string).

Inductive result (T : Type) : Type :=
  | Ok (x : T)
  | Raise (e : exn).
Arguments Ok {T} x.
Arguments Raise {T} e.

#[global] Instance result_ret : MRet result := λ T x, Ok x.
#[global] Instance result_bind : MBind result := λ T U f m,
  match m with
  | Ok x => f x
  | Raise e => Raise e
  end.

Definition is_ok {T} (r : result T) : bool :=
  match r with Ok _ => true | Raise _ => false end.

(** ** Shapes and row-major indexing *)

Definition numel (s : list nat) : nat := foldr Nat.mul 1 s.

(** Multi-index of the flat position [k] in a contiguous tensor of shape [s]. *)
Fixpoint unravel (s : list nat) (k : nat) : list nat :=
  match s with
  | [] => []
  | _ :: s' => k / numel s' :: unravel s' (k mod numel s')
  end.

(** Flat position of a multi-index. *)
Fixpoint ravel (s idx : list nat) : nat :=
  match s, idx with
  | _ :: s', i :: idx' => i * numel s' + ravel s' idx'
  | _, _ => 0
  end.

Definition in_bounds (s idx : list nat) : Prop := Forall2 lt idx s.

(** Exchange of the entries at positions [i] and [j]. *)
Definition swap_at {X} (i j : nat) (l : list X) : list X :=
  match l !! i, l !! j with
  | Some x, Some y => <[i := y]> (<[j := x]> l)
  | _, _ => l
  end.

(** The flat position that [transpose(i, j)] reads for the flat position [k]
    of its result, [s] being the shape before the transposition: the
    multi-index of [k] in the transposed shape, with positions [i] and [j]
    exchanged back. *)
Definition transposed_source (i j : nat) (s : list nat) (k : nat) : nat :=
  ravel s (swap_at i j (unravel (swap_at i j s) k)).

Section Tensor.
Context {A : Type} `{!Inhabited A}.

(** The list of the [n] elements of [l] at the positions [f 0 .. f (n-1)]. *)
Definition gather (n : nat) (f : nat → nat) (l : list A) : list A :=
  (λ k, l !!! f k) <$> seq 0 n.

Record tensor : Type := Tensor { shape : list nat; data : list A }.

(** The invariant torch keeps: as many scalars as the shape says. *)
Definition wf (t : tensor) : Prop := length (data t) = numel (shape t).

(** [t.size(d)] *)
Definition size (t : tensor) (d : nat) : result nat :=
  match shape t !! d with
  | Some n => Ok n
  | None => Raise IndexError
  end.

(** [infer_size] of ATen: one pass over the requested sizes, then the
    check against the number of elements. *)
Fixpoint infer_scan (req : list Z) (dim : nat) (newsize : Z)
    (infer_dim : option nat) : result (Z * option nat) :=
  match req with
  | [] => Ok (newsize, infer_dim)
  | d :: rest =>
      if (d =? -1)%Z then
        match infer_dim with
        | Some _ => Raise (RuntimeError OnlyOneDimensionInferred)
        | None => infer_scan rest (S dim) newsize (Some dim)
        end
      else if (0 <=? d)%Z then infer_scan rest (S dim) (newsize * d)%Z infer_dim
      else Raise (RuntimeError InvalidShapeDimension)
  end.

Definition infer_size (req : list Z) (n : Z) : result (list Z) :=
  '(newsize, infer_dim) ← infer_scan req 0 1%Z None;
  if ((n =? newsize) ||
      (bool_decide (is_Some infer_dim) && (0 <? newsize) && (n mod newsize =? 0)))%Z
  then
    match infer_dim with
    | Some i =>
        if (newsize =? 0)%Z then Raise (RuntimeError AmbiguousInferredDimension)
        else Ok (<[i := (n / newsize)%Z]> req)
    | None => Ok req
    end
  else Raise (RuntimeError ShapeInvalidForInputSize).

(** [t.view(req...)] on a contiguous tensor. *)
Definition view (t : tensor) (req : list Z) : result tensor :=
  s ← infer_size req (Z.of_nat (numel (shape t)));
  Ok (Tensor (Z.to_nat <$> s) (data t)).

(** [t.transpose(i, j)]: the element at a multi-index of the result is the
    element of [t] at the index with positions [i] and [j] exchanged.  The
    result is kept in row-major order, which is what a following
    [reshape] reads. *)
Definition transpose (t : tensor) (i j : nat) : result tensor :=
  if (i <? length (shape t)) && (j <? length (shape t)) then
    let s' := swap_at i j (shape t) in
    Ok (Tensor s' (gather (numel s') (transposed_source i j (shape t)) (data t)))
  else Raise IndexError.

(** [t.reshape(req...)]: same size inference as [view]; the elements are
    read in row-major order. *)
Definition reshape (t : tensor) (req : list Z) : result tensor :=
  s ← infer_size req (Z.of_nat (numel (shape t)));
  Ok (Tensor (Z.to_nat <$> s) (data t)).

(** [src] broadcasts to [dst] without enlarging [dst]: aligned at the
    right, every source size is the destination's or 1. *)
Fixpoint expandable_rev (src dst : list nat) : bool :=
  match src, dst with
  | [], _ => true
  | _ :: _, [] => false
  | a :: src', b :: dst' => ((a =? b) || (a =? 1)) && expandable_rev src' dst'
  end.

Definition expandable (src dst : list nat) : bool :=
  expandable_rev (reverse src) (reverse dst).

(** The source index read for a destination index: leading destination
    dimensions the source lacks are dropped, size-1 source dimensions are
    read at 0. *)
Definition bcast_index (src dst idx : list nat) : list nat :=
  zip_with (λ a i, if a =? 1 then 0 else i) src (drop (length dst - length src) idx).

(** [dst.copy_(src)] *)
Definition copy_ (dst src : tensor) : result tensor :=
  if expandable (shape src) (shape dst) then
    Ok (Tensor (shape dst)
          (gather (numel (shape dst))
             (λ k, ravel (shape src)
                     (bcast_index (shape src) (shape dst) (unravel (shape dst) k)))
             (data src)))
  else Raise (RuntimeError ShapesNotBroadcastable).

(** The "adjust q, k" step of [_oss_hf_model]:
    [q.view(nheads, -1, 2, q.size(1)).transpose(1, 2).reshape( *q.size())] *)
Definition adjust_qk (nheads : Z) (q : tensor) : result tensor :=
  c ← size q 1;
  v ← view q [nheads; (-1)%Z; 2%Z; Z.of_nat c];
  tr ← transpose v 1 2;
  reshape tr (Z.of_nat <$> shape q).

End Tensor.
Arguments tensor A : clear implicits.


(** ** The two models of [_oss_hf_model] *)

(** The FMS side, [hf_model]: the attributes the function reads. *)
Module Fms.
Record layer (A : Type) : Type := Layer {
  attn_query : tensor A;     (* attn.query.weight *)
  attn_key : tensor A;       (* attn.key.weight *)
  attn_value : tensor A;     (* attn.value.weight *)
  attn_dense : tensor A;     (* attn.dense.weight *)
  ff_wg : tensor A;          (* ff_sub_layer.wg.weight *)
  ff_w1 : tensor A;          (* ff_sub_layer.w1.weight *)
  ff_w2 : tensor A;          (* ff_sub_layer.w2.weight *)
  ln : tensor A;             (* ln.weight *)
  ff_ln : tensor A;          (* ff_ln.weight *)
}.
Record model (A : Type) : Type := Model {
  nheads : Z;                (* config.nheads *)
  embedding : tensor A;      (* embedding.weight *)
  layers : list (layer A);   (* decoder.model.layers *)
  rot_emb_freqs : tensor A;  (* decoder.model.rot_emb.freqs *)
  dec_norm : tensor A;       (* decoder.model.dec_norm.weight *)
  lm_head : tensor A;        (* lm_head.weight *)
}.
Arguments Layer {A}.
Arguments Model {A}.
Arguments attn_query {A}.
Arguments attn_key {A}.
Arguments attn_value {A}.
Arguments attn_dense {A}.
Arguments ff_wg {A}.
Arguments ff_w1 {A}.
Arguments ff_w2 {A}.
Arguments ln {A}.
Arguments ff_ln {A}.
Arguments nheads {A}.
Arguments embedding {A}.
Arguments layers {A}.
Arguments rot_emb_freqs {A}.
Arguments dec_norm {A}.
Arguments lm_head {A}.
End Fms.

(** The Hugging Face side, [oss_hf_model]: the attributes the function
    writes.  [inv_freqs] is an attribute the function creates on the rotary
    module, absent before. *)
Module Oss.
Record layer (A : Type) : Type := Layer {
  q_proj : tensor A;                   (* self_attn.q_proj.weight *)
  k_proj : tensor A;                   (* self_attn.k_proj.weight *)
  v_proj : tensor A;                   (* self_attn.v_proj.weight *)
  o_proj : tensor A;                   (* self_attn.o_proj.weight *)
  inv_freqs : option (tensor A);       (* self_attn.rotary_emb.inv_freqs *)
  gate_proj : tensor A;                (* mlp.gate_proj.weight *)
  up_proj : tensor A;                  (* mlp.up_proj.weight *)
  down_proj : tensor A;                (* mlp.down_proj.weight *)
  input_layernorm : tensor A;          (* input_layernorm.weight *)
  post_attention_layernorm : tensor A; (* post_attention_layernorm.weight *)
}.
Record model (A : Type) : Type := Model {
  embed_tokens : tensor A;   (* model.embed_tokens.weight *)
  layers : list (layer A);   (* model.layers *)
  norm : tensor A;           (* model.norm.weight *)
  lm_head : tensor A;        (* lm_head.weight *)
}.
Arguments Layer {A}.
Arguments Model {A}.
Arguments q_proj {A}.
Arguments k_proj {A}.
Arguments v_proj {A}.
Arguments o_proj {A}.
Arguments inv_freqs {A}.
Arguments gate_proj {A}.
Arguments up_proj {A}.
Arguments down_proj {A}.
Arguments input_layernorm {A}.
Arguments post_attention_layernorm {A}.
Arguments embed_tokens {A}.
Arguments layers {A}.
Arguments norm {A}.
Arguments lm_head {A}.
End Oss.

Section Translate.
Context {A : Type} `{!Inhabited A}.

(** [hf_model.decoder.model.layers[i]] for [i >= 0] *)
Definition getitem {X} (l : list X) (i : nat) : result X :=
  match l !! i with
  | Some x => Ok x
  | None => Raise IndexError
  end.

(** The body of the loop over [oss_hf_model.model.layers], in the order of
    the source: nine copies (and the [inv_freqs] assignment, which cannot
    fail), then the q and the k adjustment, each copied back in place. *)
Definition convert_layer (nheads : Z) (freqs : tensor A)
    (fms_hf_layer : Fms.layer A) (oss_hf_layer : Oss.layer A)
    : result (Oss.layer A) :=
  q0 ← copy_ (Oss.q_proj oss_hf_layer) (Fms.attn_query fms_hf_layer);
  k0 ← copy_ (Oss.k_proj oss_hf_layer) (Fms.attn_key fms_hf_layer);
  v ← copy_ (Oss.v_proj oss_hf_layer) (Fms.attn_value fms_hf_layer);
  o ← copy_ (Oss.o_proj oss_hf_layer) (Fms.attn_dense fms_hf_layer);
  g ← copy_ (Oss.gate_proj oss_hf_layer) (Fms.ff_wg fms_hf_layer);
  u ← copy_ (Oss.up_proj oss_hf_layer) (Fms.ff_w1 fms_hf_layer);
  d ← copy_ (Oss.down_proj oss_hf_layer) (Fms.ff_w2 fms_hf_layer);
  n1 ← copy_ (Oss.input_layernorm oss_hf_layer) (Fms.ln fms_hf_layer);
  n2 ← copy_ (Oss.post_attention_layernorm oss_hf_layer) (Fms.ff_ln fms_hf_layer);
  q ← adjust_qk nheads q0;
  q1 ← copy_ q0 q;
  k ← adjust_qk nheads k0;
  k1 ← copy_ k0 k;
  Ok {| Oss.q_proj := q1; Oss.k_proj := k1; Oss.v_proj := v; Oss.o_proj := o;
        Oss.inv_freqs := Some freqs;
        Oss.gate_proj := g; Oss.up_proj := u; Oss.down_proj := d;
        Oss.input_layernorm := n1; Oss.post_attention_layernorm := n2 |}.

(** The loop: [i] counts the target layers visited so far and indexes the
    source layers. *)
Fixpoint convert_layers (nheads : Z) (freqs : tensor A)
    (src : list (Fms.layer A)) (i : nat) (oss_layers : list (Oss.layer A))
    : result (list (Oss.layer A)) :=
  match oss_layers with
  | [] => Ok []
  | oss_hf_layer :: rest =>
      fms_hf_layer ← getitem src i;
      l ← convert_layer nheads freqs fms_hf_layer oss_hf_layer;
      ls ← convert_layers nheads freqs src (S i) rest;
      Ok (l :: ls)
  end.

(** [_oss_hf_model]; [oss_hf_model] is the freshly constructed
    [LlamaForCausalLM(LlamaConfig(...))] the function then fills. *)
Definition _oss_hf_model (hf_model : Fms.model A) (oss_hf_model : Oss.model A)
    : result (Oss.model A) :=
  e ← copy_ (Oss.embed_tokens oss_hf_model) (Fms.embedding hf_model);
  ls ← convert_layers (Fms.nheads hf_model) (Fms.rot_emb_freqs hf_model)
         (Fms.layers hf_model) 0 (Oss.layers oss_hf_model);
  Ok {| Oss.embed_tokens := e; Oss.layers := ls;
        Oss.norm := Fms.dec_norm hf_model;
        Oss.lm_head := Fms.lm_head hf_model |}.

End Translate.

(** ** [LLaMAHFConfig] *)

(** The Python values a configuration holds.  A float is carried as its
    binary64 bit pattern: the code stores and hands on floats and never
    computes with them. *)
Inductive pyval : Type :=
  | VNone
  | VBool (b : bool)
  | VInt (n : Z)
  | VFloat (bits : Z)
  | VStr (s : string).

Module LLaMAHFConfig.

(** The defaults of the named parameters of [__init__]. *)
Definition defaults : gmap string pyval :=
  list_to_map [
    ("src_vocab_size", VInt 32000);
    ("emb_dim", VInt 4096);
    ("norm_eps", VFloat 0x3eb0c6f7a0b5ed8d);           (* 1e-6 *)
    ("nheads", VInt 32);
    ("kvheads", VInt 0);
    ("nlayers", VInt 32);
    ("pad_token_id", VInt (-1));
    ("hidden_grow_factor", VFloat 0x4005555555555555); (* 8 / 3 *)
    ("multiple_of", VFloat 0x4070000000000000);        (* 256.0 *)
    ("activation_fn", VStr "swish");
    ("p_dropout", VFloat 0);                           (* 0.0 *)
    ("max_expected_seq_len", VInt 2048);
    ("use_cache", VBool true);
    ("eos_token_id", VInt 2);
    ("bos_token_id", VInt 1);
    ("is_decoder", VBool true)
  ].

(** The attributes [__init__] assigns itself, in the order of the source. *)
Definition own_attributes : list string :=
  [ "src_vocab_size"; "emb_dim"; "norm_eps"; "nheads"; "kvheads"; "nlayers";
    "hidden_grow_factor"; "multiple_of"; "activation_fn"; "p_dropout";
    "max_expected_seq_len"; "use_cache" ].

(** The keyword arguments [PretrainedConfig.__init__] pops below. *)
Definition popped : list string :=
  ["is_decoder"; "tie_word_embeddings"; "bos_token_id"; "pad_token_id";
   "eos_token_id"].

(** [PretrainedConfig.__init__(self, **kwargs)] of transformers, for the
    keyword arguments this class passes: each is popped with the library's
    default and stored; keyword arguments left over are stored under their
    own names.  The attributes the library fills from its defaults alone
    (no argument of this class reaches them) are not part of the model. *)
Definition PretrainedConfig_init (self kwargs : gmap string pyval)
    : gmap string pyval :=
  let pop k d := default d (kwargs !! k) in
  let self := <["is_decoder" := pop "is_decoder" (VBool false)]> self in
  let self := <["tie_word_embeddings" := pop "tie_word_embeddings" (VBool true)]> self in
  let self := <["bos_token_id" := pop "bos_token_id" VNone]> self in
  let self := <["pad_token_id" := pop "pad_token_id" VNone]> self in
  let self := <["eos_token_id" := pop "eos_token_id" VNone]> self in
  let rest := foldr delete kwargs popped in
  rest ∪ self.

(** [LLaMAHFConfig( **args)]: a named parameter takes its argument or its
    default; arguments of other names are collected by [**kwargs], which
    the body does not use.  The object starts with the class attribute
    [model_type]. *)
Definition arg (args : gmap string pyval) (k : string) : pyval :=
  default VNone (args !! k ∪ defaults !! k).

Definition __init__ (args : gmap string pyval) : gmap string pyval :=
  let self := {[ "model_type" := VStr "llama_hf" ]} in
  let self := foldl (λ self k, <[k := arg args k]> self) self own_attributes in
  PretrainedConfig_init self
    (list_to_map [
       ("pad_token_id", arg args "pad_token_id");
       ("eos_token_id", arg args "eos_token_id");
       ("bos_token_id", arg args "bos_token_id");
       ("is_decoder", arg args "is_decoder");
       ("tie_word_embeddings", VBool false)
     ]).

Definition from_dict_popped : list string :=
  ["return_unused_kwargs"; "_from_auto"; "_from_pipeline"].

(** [PretrainedConfig.from_dict(config_dict, **kwargs)] of transformers:
    the configuration is [cls( **config_dict)]; then every keyword argument
    that names an attribute of it replaces that attribute, the others are
    left unused.  ([return_unused_kwargs], [_from_auto] and
    [_from_pipeline] are popped first; with [return_unused_kwargs] the
    library returns this configuration paired with the unused ones.) *)
Definition from_dict (config_dict kwargs : gmap string pyval)
    : gmap string pyval :=
  let kwargs := foldr delete kwargs from_dict_popped in
  let config := __init__ config_dict in
  map_imap (λ key cur, Some (default cur (kwargs !! key))) config.

(** [config_dict.pop(key)] *)
Definition pop (config_dict : gmap string pyval) (key : string)
    : result (pyval * gmap string pyval) :=
  match config_dict !! key with
  | Some v => Ok (v, delete key config_dict)
  | None => Raise (KeyError key)
  end.

(** Lines 58 and 59 of [from_fms_config]: the dictionary handed to
    [from_dict].  [config_dict] is [config.as_dict()], the dictionary of the
    fields of the [LLaMAConfig]. *)
Definition renamed (config_dict : gmap string pyval)
    : result (gmap string pyval) :=
  '(v, config_dict) ← pop config_dict "pad_id";
  Ok (<["pad_token_id" := v]> config_dict).

Definition from_fms_config (config_dict hf_kwargs : gmap string pyval)
    : result (gmap string pyval) :=
  config_dict ← renamed config_dict;
  Ok (from_dict config_dict hf_kwargs).

End LLaMAHFConfig.

(** ** [pad_prompt] of the inference script *)

(** A prompt is the list of its token ids (a 1-D tensor of longs);
    [convert_tokens_to_ids] is the tokenizer's.  [pad_token] defaults to
    ["<unk>"] in the source. *)
Definition pad_prompt (convert_tokens_to_ids : string → Z)
    (prompt : list Z) (pad_len : Z) (pad_token : string) : list Z :=
  let to_pad := (pad_len - Z.of_nat (length prompt))%Z in
  if (to_pad =? 0)%Z then prompt
  else
    let pad_id := convert_tokens_to_ids pad_token in
    let pad_ids := replicate (Z.to_nat to_pad) pad_id in
    pad_ids ++ prompt.

(** ** Vocabulary of the statements *)

(** The head count fits a matrix of [rows] by [cols]: it is positive, the
    matrix has columns, and twice the head count divides the number of rows
    (each head holds [head_dim / 2] pairs of rows). *)
Definition heads_fit (nheads : Z) (rows cols : nat) : Prop :=
  (0 < nheads)%Z ∧ 0 < cols ∧ (2 * nheads | Z.of_nat rows)%Z.

(** The row of the source matrix that row [r] of the adjusted matrix holds:
    [r] read in the layout [nheads, 2, head_dim/2], the last two positions
    exchanged, and flattened in the layout [nheads, head_dim/2, 2]. *)
Definition row_source (nheads head_dim r : nat) : nat :=
  transposed_source 1 2 [nheads; head_dim / 2; 2] r.

(** The row of the adjusted matrix that holds row [r] of the source. *)
Definition row_target (nheads head_dim r : nat) : nat :=
  transposed_source 1 2 [nheads; 2; head_dim / 2] r.

Definition bijective_below (n : nat) (f : nat → nat) : Prop :=
  (∀ r, r < n → f r < n)
  ∧ (∀ r1 r2, r1 < n → r2 < n → f r1 = f r2 → r1 = r2)
  ∧ (∀ r, r < n → ∃ r', r' < n ∧ f r' = r).

Section Vocabulary.
Context {A : Type} `{!Inhabited A}.

(** Row [r] of a matrix (of a tensor, along its first dimension). *)
Definition row (t : tensor A) (r : nat) : list A :=
  let c := numel (tail (shape t)) in
  take c (drop (r * c) (data t)).

(** [dst] holds the rows of the matrix [src], row [r] of [dst] being row
    [row_source .. r] of [src], and this row mapping is a bijection. *)
Definition rows_permuted (nheads : Z) (src dst : tensor A) : Prop :=
  ∃ rows cols,
    shape src = [rows; cols] ∧ shape dst = [rows; cols] ∧
    let f := row_source (Z.to_nat nheads) (rows / Z.to_nat nheads) in
    (∀ r, r < rows → row dst r = row src (f r)) ∧ bijective_below rows f.

(** A source tensor in the layout of the destination it is copied to. *)
Definition same_layout (src dst : tensor A) : Prop :=
  shape src = shape dst ∧ wf src.

(** A q or k weight that the head count fits. *)
Definition fits_heads (nheads : Z) (t : tensor A) : Prop :=
  ∃ rows cols, shape t = [rows; cols] ∧ heads_fit nheads rows cols.

(** The tensors of a source layer in the layout of the target layer. *)
Definition layer_layouts (s : Fms.layer A) (l : Oss.layer A) : Prop :=
  same_layout (Fms.attn_query s) (Oss.q_proj l)
  ∧ same_layout (Fms.attn_key s) (Oss.k_proj l)
  ∧ same_layout (Fms.attn_value s) (Oss.v_proj l)
  ∧ same_layout (Fms.attn_dense s) (Oss.o_proj l)
  ∧ same_layout (Fms.ff_wg s) (Oss.gate_proj l)
  ∧ same_layout (Fms.ff_w1 s) (Oss.up_proj l)
  ∧ same_layout (Fms.ff_w2 s) (Oss.down_proj l)
  ∧ same_layout (Fms.ln s) (Oss.input_layernorm l)
  ∧ same_layout (Fms.ff_ln s) (Oss.post_attention_layernorm l).

Definition layer_well_formed (nheads : Z)
    (s : Fms.layer A) (l : Oss.layer A) : Prop :=
  layer_layouts s l
  ∧ fits_heads nheads (Fms.attn_query s)
  ∧ fits_heads nheads (Fms.attn_key s).

(** A well-formed input: the source tensors are in the layout of the
    freshly constructed target, layer by layer, and the head count fits
    every q and k weight. *)
Definition well_formed (hf_model : Fms.model A) (oss_hf_model : Oss.model A)
    : Prop :=
  same_layout (Fms.embedding hf_model) (Oss.embed_tokens oss_hf_model)
  ∧ Forall2 (layer_well_formed (Fms.nheads hf_model))
      (Fms.layers hf_model) (Oss.layers oss_hf_model).

(** The target layer the loop body leaves for the source layer [s] when
    every copy keeps its source: q and k adjusted, the rest as in [s]. *)
Definition translated_layer (nheads : Z) (freqs : tensor A)
    (s : Fms.layer A) (l : Oss.layer A) : Prop :=
  ∃ q k,
    adjust_qk nheads (Fms.attn_query s) = Ok q
    ∧ adjust_qk nheads (Fms.attn_key s) = Ok k
    ∧ l = {| Oss.q_proj := q; Oss.k_proj := k;
             Oss.v_proj := Fms.attn_value s; Oss.o_proj := Fms.attn_dense s;
             Oss.inv_freqs := Some freqs;
             Oss.gate_proj := Fms.ff_wg s; Oss.up_proj := Fms.ff_w1 s;
             Oss.down_proj := Fms.ff_w2 s;
             Oss.input_layernorm := Fms.ln s;
             Oss.post_attention_layernorm := Fms.ff_ln s |}.

(** The models with another list of layers. *)
Definition fms_with_layers (m : Fms.model A) (ls : list (Fms.layer A))
    : Fms.model A :=
  {| Fms.nheads := Fms.nheads m; Fms.embedding := Fms.embedding m;
     Fms.layers := ls; Fms.rot_emb_freqs := Fms.rot_emb_freqs m;
     Fms.dec_norm := Fms.dec_norm m; Fms.lm_head := Fms.lm_head m |}.

Definition oss_with_layers (m : Oss.model A) (ls : list (Oss.layer A))
    : Oss.model A :=
  {| Oss.embed_tokens := Oss.embed_tokens m; Oss.layers := ls;
     Oss.norm := Oss.norm m; Oss.lm_head := Oss.lm_head m |}.

(** Modelled from the spec: [translate_back], the conversion from the
    interleaved-half layout back to the adjacent-pair layout, is named by
    the spec (round-trip law) and absent from the repository.  It is the
    adjustment with the pair and half axes of the view exchanged:
    [q.view(nheads, 2, -1, q.size(1)).transpose(1, 2).reshape( *q.size())]. *)
Definition adjust_qk_back (nheads : Z) (q : tensor A) : result (tensor A) :=
  c ← size q 1;
  v ← view q [nheads; 2%Z; (-1)%Z; Z.of_nat c];
  tr ← transpose v 1 2;
  reshape tr (Z.of_nat <$> shape q).

End Vocabulary.

(** ** Vocabulary of the further properties *)

Section Shapes.
Context {A : Type} `{!Inhabited A}.

(** The same scalar function applied to every element of a tensor. *)
Definition tmap {B} (f : A → B) (t : tensor A) : tensor B :=
  Tensor (shape t) (f <$> data t).

(** Two target layers whose weights have the same shapes. *)
Definition layer_same_shapes (l l' : Oss.layer A) : Prop :=
  shape (Oss.q_proj l) = shape (Oss.q_proj l')
  ∧ shape (Oss.k_proj l) = shape (Oss.k_proj l')
  ∧ shape (Oss.v_proj l) = shape (Oss.v_proj l')
  ∧ shape (Oss.o_proj l) = shape (Oss.o_proj l')
  ∧ shape (Oss.gate_proj l) = shape (Oss.gate_proj l')
  ∧ shape (Oss.up_proj l) = shape (Oss.up_proj l')
  ∧ shape (Oss.down_proj l) = shape (Oss.down_proj l')
  ∧ shape (Oss.input_layernorm l) = shape (Oss.input_layernorm l')
  ∧ shape (Oss.post_attention_layernorm l)
    = shape (Oss.post_attention_layernorm l').

(** Two targets that differ in the values of their weights at most. *)
Definition model_same_shapes (m m' : Oss.model A) : Prop :=
  shape (Oss.embed_tokens m) = shape (Oss.embed_tokens m')
  ∧ Forall2 layer_same_shapes (Oss.layers m) (Oss.layers m').

End Shapes.

(** The attributes of a configuration object: the class attribute, those
    [__init__] assigns and those it hands to the base class. *)
Definition attribute_names : list string :=
  "model_type" :: LLaMAHFConfig.own_attributes ++ LLaMAHFConfig.popped.

(** The named parameters of [__init__]: the keys of its defaults. *)
Definition parameter_names : list string :=
  LLaMAHFConfig.own_attributes
  ++ ["pad_token_id"; "eos_token_id"; "bos_token_id"; "is_decoder"].

(** ** Sample inputs *)

Module Sample.

(** A tensor of shape [s] holding [b], [b+1], ... *)
Definition iota (s : list nat) (b : Z) : tensor Z :=
  Tensor s (seqZ b (Z.of_nat (numel s))).

Definition zeros (s : list nat) : tensor Z :=
  Tensor s (replicate (numel s) 0%Z).

(** A source layer with q, k, v, o of shape [rows, 2]. *)
Definition fms_layer (rows : nat) (b : Z) : Fms.layer Z :=
  {| Fms.attn_query := iota [rows; 2] b;
     Fms.attn_key := iota [rows; 2] (b + 100);
     Fms.attn_value := iota [rows; 2] (b + 200);
     Fms.attn_dense := iota [2; rows] (b + 300);
     Fms.ff_wg := iota [3; 2] (b + 400);
     Fms.ff_w1 := iota [3; 2] (b + 500);
     Fms.ff_w2 := iota [2; 3] (b + 600);
     Fms.ln := iota [2] (b + 700);
     Fms.ff_ln := iota [2] (b + 800) |}.

(** A freshly constructed target layer of the same shapes. *)
Definition oss_layer (rows : nat) : Oss.layer Z :=
  {| Oss.q_proj := zeros [rows; 2]; Oss.k_proj := zeros [rows; 2];
     Oss.v_proj := zeros [rows; 2]; Oss.o_proj := zeros [2; rows];
     Oss.inv_freqs := None;
     Oss.gate_proj := zeros [3; 2]; Oss.up_proj := zeros [3; 2];
     Oss.down_proj := zeros [2; 3];
     Oss.input_layernorm := zeros [2];
     Oss.post_attention_layernorm := zeros [2] |}.

Definition fms (nheads : Z) (rows nlayers : nat) : Fms.model Z :=
  {| Fms.nheads := nheads;
     Fms.embedding := iota [5; 2] 9000;
     Fms.layers := (λ i, fms_layer rows (1000 * Z.of_nat i)) <$> seq 0 nlayers;
     Fms.rot_emb_freqs := iota [2] 9100;
     Fms.dec_norm := iota [2] 9200;
     Fms.lm_head := iota [5; 2] 9300 |}.

Definition oss (rows nlayers : nat) : Oss.model Z :=
  {| Oss.embed_tokens := zeros [5; 2];
     Oss.layers := replicate nlayers (oss_layer rows);
     Oss.norm := zeros [2];
     Oss.lm_head := zeros [5; 2] |}.

(** The dictionary of an [LLaMAConfig]. *)
Definition fms_config : gmap string pyval :=
  list_to_map [
    ("src_vocab_size", VInt 256); ("emb_dim", VInt 16);
    ("norm_eps", VFloat 0x3ee4f8b588e368f1); ("nheads", VInt 2);
    ("kvheads", VInt 0); ("nlayers", VInt 2); ("pad_id", VInt 0);
    ("hidden_grow_factor", VFloat 0x4000000000000000);
    ("multiple_of", VInt 2); ("activation_fn", VStr "silu");
    ("p_dropout", VFloat 0); ("max_expected_seq_len", VInt 512);
    ("ntk_scaling", VBool false)
  ].

End Sample.

(** ** Further sample inputs and vocabulary *)

Module SampleTarget.

(** A target of the shapes of [Sample.oss] with other initial values. *)
Definition oss_layer (rows : nat) (b : Z) : Oss.layer Z :=
  {| Oss.q_proj := Sample.iota [rows; 2] b;
     Oss.k_proj := Sample.iota [rows; 2] (b + 1);
     Oss.v_proj := Sample.iota [rows; 2] (b + 2);
     Oss.o_proj := Sample.iota [2; rows] (b + 3);
     Oss.inv_freqs := Some (Sample.iota [1] b);
     Oss.gate_proj := Sample.iota [3; 2] (b + 4);
     Oss.up_proj := Sample.iota [3; 2] (b + 5);
     Oss.down_proj := Sample.iota [2; 3] (b + 6);
     Oss.input_layernorm := Sample.iota [2] (b + 7);
     Oss.post_attention_layernorm := Sample.iota [2] (b + 8) |}.

Definition oss (rows nlayers : nat) : Oss.model Z :=
  {| Oss.embed_tokens := Sample.iota [5; 2] (-7);
     Oss.layers := (λ i, oss_layer rows (Z.of_nat i)) <$> seq 0 nlayers;
     Oss.norm := Sample.iota [2] (-8);
     Oss.lm_head := Sample.iota [5; 2] (-9) |}.

End SampleTarget.

(** The keys of the source dictionary that [from_fms_config] reads. *)
Definition source_fields : list string :=
  "pad_id" :: LLaMAHFConfig.own_attributes
  ++ ["eos_token_id"; "bos_token_id"; "is_decoder"].

(** * Proofs *)

(** ** Small evaluations *)

(** One head of four pairs: row [r] of the adjusted weight is the source row
    [0, 2, 4, 6, 1, 3, 5, 7] at [r]. *)
Example row_source_one_head :
  row_source 1 8 <$> seq 0 8 = [0; 2; 4; 6; 1; 3; 5; 7].
Proof. vm_compute. reflexivity. Qed.

Example row_source_two_heads :
  row_source 2 4 <$> seq 0 8 = [0; 2; 1; 3; 4; 6; 5; 7].
Proof. vm_compute. reflexivity. Qed.

Example adjust_qk_4x2 :
  adjust_qk 1 (Sample.iota [4; 2] 0)
  = Ok (Tensor [4; 2] [0; 1; 4; 5; 2; 3; 6; 7]%Z).
Proof. vm_compute. reflexivity. Qed.

Example adjust_qk_odd_head_dim :
  adjust_qk 2 (Sample.iota [6; 2] 0) = Raise (RuntimeError ShapeInvalidForInputSize).
Proof. vm_compute. reflexivity. Qed.

Example adjust_qk_no_columns :
  adjust_qk 1 (Sample.iota [4; 0] 0) = Raise (RuntimeError AmbiguousInferredDimension).
Proof. vm_compute. reflexivity. Qed.

Example adjust_qk_vector :
  adjust_qk 1 (Sample.iota [4] 0) = Raise IndexError.
Proof. vm_compute. reflexivity. Qed.

Example adjust_qk_back_4x2 :
  adjust_qk_back 1 (Tensor [4; 2] [0; 1; 4; 5; 2; 3; 6; 7]%Z)
  = Ok (Sample.iota [4; 2] 0).
Proof. vm_compute. reflexivity. Qed.

Example copy_broadcasts_a_row :
  copy_ (Sample.zeros [3; 2]) (Tensor [1; 2] [7; 8]%Z)
  = Ok (Tensor [3; 2] [7; 8; 7; 8; 7; 8]%Z).
Proof. vm_compute. reflexivity. Qed.

Example copy_rejects_other_shapes :
  copy_ (Sample.zeros [4; 2]) (Sample.iota [2; 2] 0)
  = Raise (RuntimeError ShapesNotBroadcastable).
Proof. vm_compute. reflexivity. Qed.

Example pad_prompt_longer_prompt :
  pad_prompt (λ _, 0%Z) [1; 2; 3]%Z 2 "<unk>" = [1; 2; 3]%Z.
Proof. reflexivity. Qed.

Example from_fms_config_sample :
  match LLaMAHFConfig.from_fms_config Sample.fms_config ∅ with
  | Ok cfg =>
      (cfg !! "pad_token_id", cfg !! "pad_id", cfg !! "nheads",
       cfg !! "use_cache", cfg !! "ntk_scaling", cfg !! "tie_word_embeddings")
      = (Some (VInt 0), None, Some (VInt 2), Some (VBool true), None,
         Some (VBool false))
  | Raise _ => False
  end.
Proof. vm_compute. reflexivity. Qed.

(** ** The error monad *)

Lemma bind_Ok {T U} (x : T) (f : T → result U) : Ok x ≫= f = f x.
Proof. reflexivity. Qed.

Lemma bind_Raise {T U} e (f : T → result U) : Raise e ≫= f = Raise e.
Proof. reflexivity. Qed.

(** ** Row-major index arithmetic *)

#[local] Arguments numel : simpl never.

Lemma numel_nil : numel [] = 1.
Proof. reflexivity. Qed.

Lemma numel_cons d s : numel (d :: s) = d * numel s.
Proof. reflexivity. Qed.

Lemma numel_app s1 s2 : numel (s1 ++ s2) = numel s1 * numel s2.
Proof.
  induction s1 as [|d s1 IH].
  - simpl. lia.
  - change ((d :: s1) ++ s2) with (d :: (s1 ++ s2)).
    rewrite !numel_cons, IH. lia.
Qed.

Lemma length_unravel s k : length (unravel s k) = length s.
Proof. revert k. induction s as [|d s IH]; intros k; simpl; [done|]. by rewrite IH. Qed.

Lemma unravel_in_bounds s k : k < numel s → in_bounds s (unravel s k).
Proof.
  revert k. induction s as [|d s IH]; intros k Hk; simpl.
  - constructor.
  - rewrite numel_cons in Hk.
    assert (numel s ≠ 0) by (intros E; rewrite E in Hk; lia).
    constructor.
    + apply Nat.Div0.div_lt_upper_bound. lia.
    + apply IH. by apply Nat.mod_upper_bound.
Qed.

Lemma ravel_lt s idx : in_bounds s idx → ravel s idx < numel s.
Proof.
  intros H. induction H as [|i d idx s Hi _ IH]; simpl.
  - rewrite numel_nil. lia.
  - rewrite numel_cons. nia.
Qed.

Lemma ravel_unravel s k : k < numel s → ravel s (unravel s k) = k.
Proof.
  revert k. induction s as [|d s IH]; intros k Hk; simpl.
  - rewrite numel_nil in Hk. lia.
  - rewrite numel_cons in Hk.
    assert (numel s ≠ 0) by (intros E; rewrite E in Hk; lia).
    rewrite IH by (by apply Nat.mod_upper_bound).
    pose proof (Nat.div_mod_eq k (numel s)). lia.
Qed.

Lemma unravel_ravel s idx : in_bounds s idx → unravel s (ravel s idx) = idx.
Proof.
  intros H. induction H as [|i d idx s Hi Hb IH]; simpl; [done|].
  pose proof (ravel_lt _ _ Hb) as Hlt.
  f_equal.
  - rewrite Nat.div_add_l by lia. rewrite (Nat.div_small _ _ Hlt). lia.
  - rewrite Nat.add_comm, Nat.Div0.mod_add, (Nat.mod_small _ _ Hlt). exact IH.
Qed.

(** A trailing dimension splits off as [row * c + column]. *)
Lemma unravel_snoc s c r j :
  r < numel s → j < c → unravel (s ++ [c]) (r * c + j) = unravel s r ++ [j].
Proof.
  intros Hr Hj. revert r Hr. induction s as [|d s IH]; intros r Hr.
  - rewrite numel_nil in Hr. assert (r = 0) as -> by lia.
    cbn [unravel app Nat.mul Nat.add]. by rewrite numel_nil, Nat.div_1_r.
  - rewrite numel_cons in Hr.
    assert (numel s ≠ 0) by (intros E; rewrite E in Hr; lia).
    assert (Hdiv : (r * c + j) / c = r).
    { rewrite Nat.div_add_l by lia. rewrite (Nat.div_small j c Hj). lia. }
    assert (Hmod : (r * c + j) mod c = j).
    { rewrite Nat.add_comm, Nat.Div0.mod_add. by apply Nat.mod_small. }
    change ((d :: s) ++ [c]) with (d :: (s ++ [c])).
    cbn [unravel app]. rewrite numel_app.
    rewrite (numel_cons c []), numel_nil, Nat.mul_1_r.
    rewrite (Nat.mul_comm (numel s) c).
    rewrite <- Nat.Div0.div_div, Hdiv.
    rewrite Nat.Div0.mod_mul_r, Hdiv, Hmod.
    replace (j + c * (r mod numel s)) with (r mod numel s * c + j) by lia.
    f_equal. apply IH. by apply Nat.mod_upper_bound.
Qed.

Lemma ravel_snoc s c idx j :
  length idx = length s → ravel (s ++ [c]) (idx ++ [j]) = ravel s idx * c + j.
Proof.
  revert idx. induction s as [|d s IH]; intros [|i idx] Hlen; try done.
  - cbn [ravel app]. rewrite numel_nil. lia.
  - injection Hlen as Hlen.
    change (ravel (d :: (s ++ [c])) (i :: (idx ++ [j])) = ravel (d :: s) (i :: idx) * c + j).
    cbn [ravel]. rewrite IH by done. rewrite numel_app.
    rewrite (numel_cons c []), numel_nil. lia.
Qed.

(** ** The exchange of positions 1 and 2 *)

Lemma swap12_cons {X} (a b c : X) r :
  swap_at 1 2 (a :: b :: c :: r) = a :: c :: b :: r.
Proof. reflexivity. Qed.

Lemma swap12_involutive {X} (l : list X) : swap_at 1 2 (swap_at 1 2 l) = l.
Proof. by destruct l as [|a [|b [|c r]]]. Qed.

Lemma length_swap12 {X} (l : list X) : length (swap_at 1 2 l) = length l.
Proof. by destruct l as [|a [|b [|c r]]]. Qed.

Lemma numel_swap12 s : numel (swap_at 1 2 s) = numel s.
Proof.
  destruct s as [|a [|b [|c r]]]; try done.
  rewrite swap12_cons, !numel_cons. lia.
Qed.

Lemma in_bounds_swap12 s idx :
  in_bounds s idx → in_bounds (swap_at 1 2 s) (swap_at 1 2 idx).
Proof.
  intros H.
  destruct H as [|i a idx s Hi H]; [constructor|].
  destruct H as [|j b idx s Hj H]; [by repeat constructor|].
  destruct H as [|k c idx s Hk H]; [by repeat constructor|].
  rewrite !swap12_cons. by repeat constructor.
Qed.

Lemma transposed_source_lt s k :
  k < numel s → transposed_source 1 2 s k < numel s.
Proof.
  intros Hk. unfold transposed_source. apply ravel_lt.
  rewrite <- (swap12_involutive s) at 1.
  apply in_bounds_swap12, unravel_in_bounds. by rewrite numel_swap12.
Qed.

(** Transposing the transposed shape reads back the original position. *)
Lemma transposed_source_inverse s k :
  k < numel s →
  transposed_source 1 2 s (transposed_source 1 2 (swap_at 1 2 s) k) = k.
Proof.
  intros Hk. unfold transposed_source.
  rewrite swap12_involutive.
  rewrite unravel_ravel.
  - rewrite swap12_involutive. by apply ravel_unravel.
  - apply in_bounds_swap12, unravel_in_bounds. done.
Qed.

(** ** Gathers *)

Section Gather.
Context {A : Type} `{!Inhabited A}.
Implicit Types (l : list A) (f g : nat → nat).

Lemma length_gather n f l : length (gather n f l) = n.
Proof. unfold gather. by rewrite length_fmap, length_seq. Qed.

Lemma lookup_gather n f l k : k < n → gather n f l !! k = Some (l !!! f k).
Proof.
  intros Hk. unfold gather.
  by rewrite list_lookup_fmap, lookup_seq_lt.
Qed.

Lemma lookup_total_gather n f l k : k < n → gather n f l !!! k = l !!! f k.
Proof. intros Hk. by apply list_lookup_total_correct, lookup_gather. Qed.

Lemma gather_ext n f g l :
  (∀ k, k < n → f k = g k) → gather n f l = gather n g l.
Proof.
  intros Hfg. unfold gather. apply list_fmap_ext.
  intros i k [-> Hi]%lookup_seq. by rewrite Hfg.
Qed.

Lemma gather_id l : gather (length l) (λ k, k) l = l.
Proof.
  apply list_eq_same_length with (length l); [done|apply length_gather|].
  intros i x y Hi Hx Hy.
  rewrite lookup_gather in Hx by done.
  apply list_lookup_total_correct in Hy. congruence.
Qed.

Lemma gather_gather n m f g l :
  (∀ k, k < n → f k < m) →
  gather n f (gather m g l) = gather n (λ k, g (f k)) l.
Proof.
  intros Hf. unfold gather at 1 3. apply list_fmap_ext.
  intros i k [-> Hi]%lookup_seq. simpl.
  by rewrite lookup_total_gather by auto.
Qed.

(** A gather along a bijection of the positions rearranges the list. *)
Lemma gather_Permutation f g l :
  (∀ k, k < length l → f k < length l) →
  (∀ k, k < length l → g k < length l) →
  (∀ k, k < length l → g (f k) = k) →
  (∀ k, k < length l → f (g k) = k) →
  gather (length l) f l ≡ₚ l.
Proof.
  intros Hf Hg Hgf Hfg.
  rewrite <- (gather_id l) at 3. unfold gather.
  change (λ k, l !!! f k) with ((λ k, l !!! k) ∘ f).
  rewrite list_fmap_compose. apply fmap_Permutation.
  apply NoDup_Permutation.
  - apply NoDup_fmap_2_strong; [|apply NoDup_seq].
    intros x y [_ Hx]%elem_of_seq [_ Hy]%elem_of_seq Hxy.
    rewrite <- (Hgf x), <- (Hgf y) by lia. by rewrite Hxy.
  - apply NoDup_seq.
  - intros x. rewrite list_elem_of_fmap. setoid_rewrite elem_of_seq. split.
    + intros (k & -> & _ & Hk). split; [lia|]. simpl. apply Hf. lia.
    + intros [_ Hx]. exists (g x). split; [by rewrite Hfg by lia|].
      split; [lia|]. simpl. apply Hg. lia.
Qed.
End Gather.

(** ** The tensor operations *)

Section TensorFacts.
Context {A : Type} `{!Inhabited A}.
Implicit Types (t q : tensor A).

Lemma tensor_eq t s l : shape t = s → data t = l → Tensor s l = t.
Proof. destruct t; simpl; by intros -> ->. Qed.

(** *** [reshape] to a shape given by sizes *)

Lemma infer_scan_sizes (s : list nat) dim acc :
  infer_scan (Z.of_nat <$> s) dim acc None
  = Ok ((acc * Z.of_nat (numel s))%Z, None).
Proof.
  revert dim acc. induction s as [|d s IH]; intros dim acc.
  - simpl. rewrite numel_nil. f_equal. f_equal. lia.
  - rewrite fmap_cons. cbn [infer_scan].
    destruct (Z.eqb_spec (Z.of_nat d) (-1)); [lia|].
    destruct (Z.leb_spec 0 (Z.of_nat d)); [|lia].
    rewrite IH, numel_cons. f_equal. f_equal. lia.
Qed.

Lemma to_nat_of_nat_list (s : list nat) : Z.to_nat <$> (Z.of_nat <$> s) = s.
Proof.
  induction s as [|d s IH]; [done|].
  rewrite !fmap_cons, IH. by rewrite Nat2Z.id.
Qed.

Lemma reshape_sizes t (s : list nat) :
  numel (shape t) = numel s →
  reshape t (Z.of_nat <$> s) = Ok (Tensor s (data t)).
Proof.
  intros Hn. unfold reshape, infer_size.
  rewrite infer_scan_sizes, bind_Ok.
  rewrite Hn, Z.mul_1_l, Z.eqb_refl. cbn [orb].
  by rewrite bind_Ok, to_nat_of_nat_list.
Qed.

(** *** [copy_] between tensors of one shape *)

Lemma expandable_rev_refl s : expandable_rev s s = true.
Proof. induction s as [|d s IH]; [done|]. simpl. by rewrite Nat.eqb_refl. Qed.

Lemma bcast_index_same s idx : in_bounds s idx → bcast_index s s idx = idx.
Proof.
  intros H. unfold bcast_index. rewrite Nat.sub_diag, drop_0.
  induction H as [|i d idx s Hi _ IH]; [done|].
  cbn [zip_with]. rewrite IH. f_equal.
  destruct (Nat.eqb_spec d 1); lia.
Qed.

Lemma copy_same_shape (dst src : tensor A) :
  shape src = shape dst → wf src → copy_ dst src = Ok src.
Proof.
  intros Hs Hwf. unfold copy_, expandable.
  rewrite Hs, expandable_rev_refl. f_equal.
  apply tensor_eq; [done|].
  rewrite <- Hs. unfold wf in Hwf. rewrite <- Hwf. symmetry.
  etransitivity; [|apply gather_id]. apply gather_ext.
  intros k Hk. rewrite Hwf in Hk.
  rewrite bcast_index_same by (by apply unravel_in_bounds).
  by apply ravel_unravel.
Qed.

(** *** The view of a matrix as [nheads, -1, 2, columns] *)

Lemma view_qk_ok q n m c :
  shape q = [n * (m * 2); c] → 0 < n → 0 < c →
  view q [Z.of_nat n; (-1)%Z; 2%Z; Z.of_nat c] = Ok (Tensor [n; m; 2; c] (data q)).
Proof.
  intros Hs Hn Hc. unfold view, infer_size. rewrite Hs. cbn [infer_scan].
  destruct (Z.eqb_spec (Z.of_nat n) (-1)); [lia|].
  destruct (Z.leb_spec 0 (Z.of_nat n)); [|lia].
  rewrite Z.eqb_refl.
  destruct (Z.eqb_spec (Z.of_nat c) (-1)); [lia|].
  destruct (Z.leb_spec 0 (Z.of_nat c)); [|lia].
  cbn [Z.eqb Z.leb Z.compare]. rewrite bind_Ok.
  set (ns := (1 * Z.of_nat n * 2 * Z.of_nat c)%Z).
  assert (Hnum : Z.of_nat (numel [n * (m * 2); c]) = (Z.of_nat m * ns)%Z).
  { rewrite !numel_cons, numel_nil. unfold ns. lia. }
  assert (0 < ns)%Z by (unfold ns; lia).
  rewrite Hnum, Z.mod_mul, Z.div_mul by lia.
  destruct (Z.ltb_spec 0 ns); [|lia].
  rewrite bool_decide_eq_true_2 by eauto.
  rewrite orb_true_r.
  destruct (Z.eqb_spec ns 0); [lia|].
  rewrite bind_Ok. cbn. by rewrite !Nat2Z.id.
Qed.

Lemma heads_fit_dec nheads rows cols :
  {heads_fit nheads rows cols} + {¬ heads_fit nheads rows cols}.
Proof.
  unfold heads_fit.
  destruct (Z_lt_dec 0 nheads); [|right; tauto].
  destruct (lt_dec 0 cols); [|right; tauto].
  destruct (Z.eq_dec (Z.of_nat rows mod (2 * nheads)) 0) as [E|E];
    [left|right]; rewrite Z.mod_divide in E by lia; tauto.
Qed.

Lemma heads_fit_split nheads rows cols :
  heads_fit nheads rows cols →
  ∃ n m, nheads = Z.of_nat n ∧ 0 < n ∧ rows = n * (m * 2).
Proof.
  intros (Hn & _ & k & Hk).
  assert (0 <= k)%Z by nia.
  exists (Z.to_nat nheads), (Z.to_nat k). split; [lia|]. split; [lia|].
  apply Nat2Z.inj. rewrite !Nat2Z.inj_mul, !Z2Nat.id by lia. lia.
Qed.

Lemma view_qk_fail q nheads rows cols :
  shape q = [rows; cols] → ¬ heads_fit nheads rows cols →
  ∃ w, view q [nheads; (-1)%Z; 2%Z; Z.of_nat cols] = Raise (RuntimeError w)
       ∧ ((0 < nheads)%Z → 0 < cols → w = ShapeInvalidForInputSize).
Proof.
  intros Hs Hno. unfold view, infer_size. rewrite Hs. cbn [infer_scan].
  destruct (Z.eqb_spec nheads (-1)) as [->|Hm1].
  { rewrite Z.eqb_refl, bind_Raise, bind_Raise. eexists; split; [done|lia]. }
  destruct (Z.leb_spec 0 nheads) as [Hge|Hlt]; cycle 1.
  { rewrite !bind_Raise. eexists; split; [done|lia]. }
  rewrite Z.eqb_refl.
  destruct (Z.eqb_spec (Z.of_nat cols) (-1)); [lia|].
  destruct (Z.leb_spec 0 (Z.of_nat cols)); [|lia].
  cbn [Z.eqb Z.leb Z.compare]. rewrite bind_Ok.
  set (ns := (1 * nheads * 2 * Z.of_nat cols)%Z).
  set (num := Z.of_nat (numel [rows; cols])).
  assert (Hnum : num = (Z.of_nat rows * Z.of_nat cols)%Z).
  { unfold num. rewrite !numel_cons, numel_nil. lia. }
  assert (Hdiv : ns ≠ 0%Z → (ns | num)%Z → heads_fit nheads rows cols).
  { intros Hns [k Hk]. unfold ns in Hns. split; [lia|]. split; [lia|].
    exists k. apply (Z.mul_reg_r _ _ (Z.of_nat cols)); [lia|].
    rewrite <- Hnum, Hk. unfold ns. lia. }
  destruct (Z.eqb_spec ns 0) as [Hz|Hnz].
  - (* no element requested: the inferred size is ambiguous or invalid *)
    destruct (Z.eqb_spec num ns).
    + cbn [orb]. rewrite bind_Raise. eexists; split; [done|]. unfold ns in Hz. lia.
    + rewrite Hz. cbn [Z.ltb Z.compare andb orb]. rewrite andb_false_r.
      cbn [andb]. rewrite bind_Raise. eexists; split; done.
  - destruct (Z.eqb_spec num ns) as [He|Hne].
    + exfalso. apply Hno, Hdiv; [done|]. exists 1%Z. lia.
    + cbn [orb].
      destruct (Z.ltb_spec 0 ns); cycle 1.
      { rewrite andb_false_r. cbn [andb]. rewrite bind_Raise. eexists; split; done. }
      destruct (Z.eqb_spec (num mod ns) 0) as [Hmod|Hmod].
      * exfalso. apply Hno, Hdiv; [done|]. by apply Z.mod_divide.
      * rewrite andb_false_r, bind_Raise. eexists; split; done.
Qed.

(** *** The adjustment of a q or k matrix *)

Lemma adjust_qk_ok q n m c :
  shape q = [n * (m * 2); c] → 0 < n → 0 < c →
  adjust_qk (Z.of_nat n) q
  = Ok (Tensor [n * (m * 2); c]
          (gather (numel [n; 2; m; c]) (transposed_source 1 2 [n; m; 2; c]) (data q))).
Proof.
  intros Hs Hn Hc. unfold adjust_qk, size. rewrite Hs. cbn [lookup list_lookup].
  rewrite bind_Ok, (view_qk_ok q n m c) by done. rewrite bind_Ok.
  unfold transpose. cbn [shape data length Nat.ltb Nat.leb andb].
  rewrite swap12_cons, bind_Ok.
  apply reshape_sizes. cbn [shape]. rewrite !numel_cons. lia.
Qed.

Lemma adjust_qk_fail q nheads rows cols :
  shape q = [rows; cols] → ¬ heads_fit nheads rows cols →
  ∃ w, adjust_qk nheads q = Raise (RuntimeError w)
       ∧ ((0 < nheads)%Z → 0 < cols → w = ShapeInvalidForInputSize).
Proof.
  intros Hs Hno. destruct (view_qk_fail q nheads rows cols Hs Hno) as (w & Hv & Hw).
  exists w. split; [|done].
  unfold adjust_qk, size. rewrite Hs. cbn [lookup list_lookup].
  by rewrite bind_Ok, Hv, bind_Raise.
Qed.

Lemma adjust_qk_inv q nheads rows cols q' :
  shape q = [rows; cols] → adjust_qk nheads q = Ok q' →
  ∃ n m, nheads = Z.of_nat n ∧ 0 < n ∧ 0 < cols ∧ rows = n * (m * 2)
         ∧ q' = Tensor [rows; cols]
                  (gather (numel [n; 2; m; cols])
                     (transposed_source 1 2 [n; m; 2; cols]) (data q)).
Proof.
  intros Hs Hq. destruct (heads_fit_dec nheads rows cols) as [Hyes|Hno].
  - destruct (heads_fit_split _ _ _ Hyes) as (n & m & -> & Hn & ->).
    destruct Hyes as (_ & Hc & _).
    rewrite (adjust_qk_ok q n m cols) in Hq by done.
    exists n, m. by simplify_eq.
  - destruct (adjust_qk_fail q nheads rows cols Hs Hno) as (w & Hw & _).
    congruence.
Qed.

End TensorFacts.

(** ** The row mapping of the adjustment *)

Lemma swap12_snoc3 {X} (a b c : X) (x : X) :
  swap_at 1 2 ([a; b; c] ++ [x]) = swap_at 1 2 [a; b; c] ++ [x].
Proof. reflexivity. Qed.

(** Row [r], column [j] of the adjusted matrix is read at row
    [row_source r], column [j] of the source. *)
Lemma transposed_source_row n m c r j :
  r < n * (m * 2) → j < c →
  transposed_source 1 2 [n; m; 2; c] (r * c + j)
  = row_source n (m * 2) r * c + j.
Proof.
  intros Hr Hj. unfold row_source, transposed_source.
  rewrite Nat.div_mul by lia. rewrite !swap12_cons.
  change [n; 2; m; c] with ([n; 2; m] ++ [c]).
  change [n; m; 2; c] with ([n; m; 2] ++ [c]).
  rewrite unravel_snoc by (rewrite ?numel_cons, ?numel_nil; lia).
  pose proof (length_unravel [n; 2; m] r) as Hlen.
  destruct (unravel [n; 2; m] r) as [|a [|b [|d [|? ?]]]]; try done.
  rewrite swap12_snoc3. by rewrite ravel_snoc.
Qed.

Lemma row_source_bijective n m :
  bijective_below (n * (m * 2)) (row_source n (m * 2)).
Proof.
  assert (Hn1 : numel [n; m; 2] = n * (m * 2)) by (rewrite !numel_cons, numel_nil; lia).
  assert (Hn2 : numel [n; 2; m] = n * (m * 2)) by (rewrite !numel_cons, numel_nil; lia).
  assert (Hinv1 : ∀ r, r < n * (m * 2) →
            row_source n (m * 2) (row_target n (m * 2) r) = r).
  { intros r Hr. unfold row_source, row_target. rewrite Nat.div_mul by lia.
    apply (transposed_source_inverse [n; m; 2]). by rewrite Hn1. }
  assert (Hinv2 : ∀ r, r < n * (m * 2) →
            row_target n (m * 2) (row_source n (m * 2) r) = r).
  { intros r Hr. unfold row_source, row_target. rewrite Nat.div_mul by lia.
    apply (transposed_source_inverse [n; 2; m]). by rewrite Hn2. }
  assert (Hlt1 : ∀ r, r < n * (m * 2) → row_source n (m * 2) r < n * (m * 2)).
  { intros r Hr. unfold row_source. rewrite Nat.div_mul by lia.
    rewrite <- Hn1. apply transposed_source_lt. by rewrite Hn1. }
  assert (Hlt2 : ∀ r, r < n * (m * 2) → row_target n (m * 2) r < n * (m * 2)).
  { intros r Hr. unfold row_target. rewrite Nat.div_mul by lia.
    rewrite <- Hn2. apply transposed_source_lt. by rewrite Hn2. }
  split; [done|]. split.
  - intros r1 r2 H1 H2 E. rewrite <- (Hinv2 r1), <- (Hinv2 r2) by done. by rewrite E.
  - intros r Hr. exists (row_target n (m * 2) r). auto.
Qed.

Section Rows.
Context {A : Type} `{!Inhabited A}.
Implicit Types (q : tensor A) (l : list A).

Lemma row_gather n f l r c :
  r * c + c ≤ n →
  take c (drop (r * c) (gather n f l)) = gather c (λ j, f (r * c + j)) l.
Proof.
  intros Hle. unfold gather.
  rewrite <- fmap_drop, <- fmap_take, drop_seq, take_seq.
  replace (c `min` (n - r * c)) with c by lia.
  apply list_eq. intros i. rewrite !list_lookup_fmap.
  destruct (decide (i < c)) as [Hi|Hi].
  - by rewrite !lookup_seq_lt.
  - by rewrite !lookup_seq_ge by lia.
Qed.

Lemma row_matrix q rows cols r :
  shape q = [rows; cols] → wf q → r < rows →
  row q r = gather cols (λ j, r * cols + j) (data q).
Proof.
  intros Hs Hwf Hr. unfold row. rewrite Hs. cbn [tail].
  rewrite numel_cons, numel_nil, Nat.mul_1_r.
  rewrite <- (gather_id (data q)) at 1.
  apply row_gather. unfold wf in Hwf.
  rewrite Hwf, Hs, !numel_cons, numel_nil. nia.
Qed.

(** The adjusted matrix, row by row. *)
Lemma adjusted_rows q n m c r :
  shape q = [n * (m * 2); c] → wf q → r < n * (m * 2) →
  row (Tensor [n * (m * 2); c]
         (gather (numel [n; 2; m; c]) (transposed_source 1 2 [n; m; 2; c]) (data q))) r
  = row q (row_source n (m * 2) r).
Proof.
  intros Hs Hwf Hr.
  rewrite (row_matrix q _ _ _ Hs Hwf) by (by apply row_source_bijective).
  unfold row. cbn [shape data tail].
  rewrite numel_cons, numel_nil, Nat.mul_1_r.
  rewrite row_gather by (rewrite !numel_cons, numel_nil; nia).
  apply gather_ext. intros j Hj. by apply transposed_source_row.
Qed.

(** The adjusted matrix holds the scalars of the source, rearranged. *)
Lemma adjusted_Permutation q n m c :
  shape q = [n * (m * 2); c] → wf q →
  gather (numel [n; 2; m; c]) (transposed_source 1 2 [n; m; 2; c]) (data q)
  ≡ₚ data q.
Proof.
  intros Hs Hwf. unfold wf in Hwf. rewrite Hs in Hwf.
  assert (Hn1 : numel [n; 2; m; c] = length (data q)).
  { rewrite Hwf, !numel_cons, numel_nil. lia. }
  assert (Hn2 : numel [n; m; 2; c] = length (data q)).
  { rewrite Hwf, !numel_cons, numel_nil. lia. }
  rewrite Hn1.
  apply gather_Permutation with (g := transposed_source 1 2 [n; 2; m; c]).
  - intros k Hk. rewrite <- Hn2. apply transposed_source_lt. by rewrite Hn2.
  - intros k Hk. rewrite <- Hn1. apply transposed_source_lt. by rewrite Hn1.
  - intros k Hk. apply (transposed_source_inverse [n; 2; m; c]). by rewrite Hn1.
  - intros k Hk. apply (transposed_source_inverse [n; m; 2; c]). by rewrite Hn2.
Qed.

End Rows.

(** ** The translation of a well-formed input *)

Section TranslateFacts.
Context {A : Type} `{!Inhabited A}.
Implicit Types (q k : tensor A) (s : Fms.layer A) (l : Oss.layer A).

Lemma adjust_qk_fits nheads q :
  fits_heads nheads q →
  ∃ n m c, nheads = Z.of_nat n ∧ 0 < n ∧ 0 < c ∧ shape q = [n * (m * 2); c]
    ∧ adjust_qk nheads q
      = Ok (Tensor [n * (m * 2); c]
              (gather (numel [n; 2; m; c])
                 (transposed_source 1 2 [n; m; 2; c]) (data q))).
Proof.
  intros (rows & cols & Hs & Hadm).
  destruct (heads_fit_split _ _ _ Hadm) as (n & m & -> & Hn & ->).
  destruct Hadm as (_ & Hc & _).
  exists n, m, cols. by rewrite (adjust_qk_ok q n m cols).
Qed.

(** The adjusted matrix goes back into the weight it was taken from. *)
Lemma adjust_qk_copy_back nheads q :
  fits_heads nheads q →
  ∃ q', adjust_qk nheads q = Ok q' ∧ copy_ q q' = Ok q'.
Proof.
  intros Hadm.
  destruct (adjust_qk_fits _ _ Hadm) as (n & m & c & -> & Hn & Hc & Hs & Hq).
  eexists. split; [exact Hq|].
  apply copy_same_shape; [by rewrite Hs|].
  unfold wf. cbn [shape data]. rewrite length_gather, !numel_cons. lia.
Qed.

(** After the nine copies of a layer in the target's layout, the loop body
    is left with the two adjustments. *)
Lemma convert_layer_layouts nheads (freqs : tensor A) s l :
  layer_layouts s l →
  convert_layer nheads freqs s l
  = (q ← adjust_qk nheads (Fms.attn_query s);
     q1 ← copy_ (Fms.attn_query s) q;
     k ← adjust_qk nheads (Fms.attn_key s);
     k1 ← copy_ (Fms.attn_key s) k;
     Ok {| Oss.q_proj := q1; Oss.k_proj := k1;
           Oss.v_proj := Fms.attn_value s; Oss.o_proj := Fms.attn_dense s;
           Oss.inv_freqs := Some freqs;
           Oss.gate_proj := Fms.ff_wg s; Oss.up_proj := Fms.ff_w1 s;
           Oss.down_proj := Fms.ff_w2 s;
           Oss.input_layernorm := Fms.ln s;
           Oss.post_attention_layernorm := Fms.ff_ln s |}).
Proof.
  intros ([Hq1 Hq2] & [Hk1 Hk2] & [Hv1 Hv2] & [Ho1 Ho2] & [Hg1 Hg2]
          & [Hu1 Hu2] & [Hd1 Hd2] & [Hn1 Hn2] & [Hp1 Hp2]).
  unfold convert_layer.
  rewrite !copy_same_shape by done. by rewrite !bind_Ok.
Qed.

Lemma convert_layer_well_formed nheads (freqs : tensor A) s l :
  layer_well_formed nheads s l →
  ∃ l', convert_layer nheads freqs s l = Ok l'
        ∧ translated_layer nheads freqs s l'.
Proof.
  intros (Hlay & Haq & Hak).
  destruct (adjust_qk_copy_back _ _ Haq) as (q' & Hq' & Hcq).
  destruct (adjust_qk_copy_back _ _ Hak) as (k' & Hk' & Hck).
  rewrite (convert_layer_layouts _ _ _ _ Hlay).
  rewrite Hq', bind_Ok, Hcq, bind_Ok, Hk', bind_Ok, Hck, bind_Ok.
  eexists. split; [done|]. by exists q', k'.
Qed.

Lemma getitem_middle {X} (pre : list X) x post :
  getitem (pre ++ x :: post) (length pre) = Ok x.
Proof. unfold getitem. by rewrite list_lookup_middle. Qed.

Lemma convert_layers_well_formed nheads (freqs : tensor A) src ls :
  Forall2 (layer_well_formed nheads) src ls →
  ∀ pre, ∃ out,
    convert_layers nheads freqs (pre ++ src) (length pre) ls = Ok out
    ∧ Forall2 (translated_layer nheads freqs) src out.
Proof.
  induction 1 as [|s l src ls Hl _ IH]; intros pre.
  - exists []. split; [done|constructor].
  - destruct (convert_layer_well_formed nheads freqs s l Hl) as (l' & Hl' & Ht).
    destruct (IH (pre ++ [s])) as (out & Hout & Hall).
    rewrite <- app_assoc, length_app, Nat.add_1_r in Hout. cbn [app] in Hout.
    exists (l' :: out). split; [|by constructor].
    cbn [convert_layers].
    by rewrite getitem_middle, bind_Ok, Hl', bind_Ok, Hout, bind_Ok.
Qed.

(** The result of [_oss_hf_model] on a well-formed input. *)
Lemma translate_well_formed (hf_model : Fms.model A) oss_hf_model :
  well_formed hf_model oss_hf_model →
  ∃ ls,
    _oss_hf_model hf_model oss_hf_model
    = Ok {| Oss.embed_tokens := Fms.embedding hf_model; Oss.layers := ls;
            Oss.norm := Fms.dec_norm hf_model;
            Oss.lm_head := Fms.lm_head hf_model |}
    ∧ Forall2 (translated_layer (Fms.nheads hf_model) (Fms.rot_emb_freqs hf_model))
        (Fms.layers hf_model) ls.
Proof.
  intros [[He1 He2] Hls].
  destruct (convert_layers_well_formed _ (Fms.rot_emb_freqs hf_model) _ _ Hls [])
    as (ls & Hconv & Hall).
  exists ls. split; [|done].
  unfold _oss_hf_model. rewrite copy_same_shape by done.
  cbn [app length] in Hconv. by rewrite bind_Ok, Hconv, bind_Ok.
Qed.

End TranslateFacts.

(** ** The way back *)

Section WayBack.
Context {A : Type} `{!Inhabited A}.
Implicit Types (q : tensor A).

Lemma view_back_ok q n m c :
  shape q = [n * (m * 2); c] → 0 < n → 0 < c →
  view q [Z.of_nat n; 2%Z; (-1)%Z; Z.of_nat c] = Ok (Tensor [n; 2; m; c] (data q)).
Proof.
  intros Hs Hn Hc. unfold view, infer_size. rewrite Hs. cbn [infer_scan].
  destruct (Z.eqb_spec (Z.of_nat n) (-1)); [lia|].
  destruct (Z.leb_spec 0 (Z.of_nat n)); [|lia].
  rewrite Z.eqb_refl.
  destruct (Z.eqb_spec (Z.of_nat c) (-1)); [lia|].
  destruct (Z.leb_spec 0 (Z.of_nat c)); [|lia].
  cbn [Z.eqb Z.leb Z.compare]. rewrite bind_Ok.
  set (ns := (1 * Z.of_nat n * 2 * Z.of_nat c)%Z).
  assert (Hnum : Z.of_nat (numel [n * (m * 2); c]) = (Z.of_nat m * ns)%Z).
  { rewrite !numel_cons, numel_nil. unfold ns. lia. }
  assert (0 < ns)%Z by (unfold ns; lia).
  rewrite Hnum, Z.mod_mul, Z.div_mul by lia.
  destruct (Z.ltb_spec 0 ns); [|lia].
  rewrite bool_decide_eq_true_2 by eauto.
  rewrite orb_true_r.
  destruct (Z.eqb_spec ns 0); [lia|].
  rewrite bind_Ok. cbn. by rewrite !Nat2Z.id.
Qed.

Lemma adjust_qk_back_ok q n m c :
  shape q = [n * (m * 2); c] → 0 < n → 0 < c →
  adjust_qk_back (Z.of_nat n) q
  = Ok (Tensor [n * (m * 2); c]
          (gather (numel [n; m; 2; c]) (transposed_source 1 2 [n; 2; m; c]) (data q))).
Proof.
  intros Hs Hn Hc. unfold adjust_qk_back, size. rewrite Hs. cbn [lookup list_lookup].
  rewrite bind_Ok, (view_back_ok q n m c) by done. rewrite bind_Ok.
  unfold transpose. cbn [shape data length Nat.ltb Nat.leb andb].
  rewrite swap12_cons, bind_Ok.
  apply reshape_sizes. cbn [shape]. rewrite !numel_cons. lia.
Qed.

(** Adjusting and going back gives the matrix one started from. *)
Lemma adjust_qk_round_trip nheads q :
  fits_heads nheads q → wf q →
  ∃ q', adjust_qk nheads q = Ok q' ∧ adjust_qk_back nheads q' = Ok q.
Proof.
  intros Hadm Hwf.
  destruct (adjust_qk_fits _ _ Hadm) as (n & m & c & -> & Hn & Hc & Hs & Hq).
  eexists. split; [exact Hq|].
  rewrite (adjust_qk_back_ok _ n m c) by done. cbn [data]. f_equal.
  apply tensor_eq; [done|].
  assert (Hn1 : numel [n; 2; m; c] = length (data q)).
  { rewrite Hwf, Hs, !numel_cons, numel_nil. lia. }
  assert (Hn2 : numel [n; m; 2; c] = length (data q)).
  { rewrite Hwf, Hs, !numel_cons, numel_nil. lia. }
  rewrite gather_gather; cycle 1.
  { intros k Hk. apply (transposed_source_lt [n; 2; m; c]). by rewrite Hn1, <- Hn2. }
  rewrite Hn2. symmetry. etransitivity; [|apply gather_id].
  apply gather_ext. intros k Hk.
  apply (transposed_source_inverse [n; m; 2; c]). by rewrite Hn2.
Qed.

End WayBack.

(** ** Failures of the translation *)

Section Failures.
Context {A : Type} `{!Inhabited A}.
Implicit Types (q k : tensor A) (s : Fms.layer A) (l : Oss.layer A).

Lemma copy_shape (dst src t : tensor A) :
  copy_ dst src = Ok t → shape t = shape dst.
Proof. unfold copy_. case_match; [|done]. by intros [= <-]. Qed.

Lemma not_divisible_not_fit nheads rows cols :
  ¬ (2 * nheads | Z.of_nat rows)%Z → ¬ heads_fit nheads rows cols.
Proof. intros Hno (_ & _ & Hdiv). by apply Hno. Qed.

(** A target layer with a q or k weight whose row count the head count
    does not divide as required stops the loop body. *)
Lemma convert_layer_not_divisible nheads (freqs : tensor A) s l rows cols :
  shape (Oss.q_proj l) = [rows; cols] ∨ shape (Oss.k_proj l) = [rows; cols] →
  ¬ (2 * nheads | Z.of_nat rows)%Z →
  ∃ e, convert_layer nheads freqs s l = Raise e.
Proof.
  intros Hshape Hno%(not_divisible_not_fit _ _ cols). unfold convert_layer.
  destruct (copy_ (Oss.q_proj l) _) as [q0|e] eqn:Hq0; [|by eexists].
  rewrite bind_Ok.
  destruct (copy_ (Oss.k_proj l) _) as [k0|e] eqn:Hk0; [|by eexists].
  rewrite bind_Ok.
  do 7 (match goal with
        | |- ∃ e, (copy_ ?d ?x ≫= _) = _ =>
            destruct (copy_ d x); [rewrite bind_Ok|by eexists]
        end).
  apply copy_shape in Hq0, Hk0.
  destruct (adjust_qk nheads q0) as [q|e] eqn:Hq; [|by eexists].
  rewrite bind_Ok.
  destruct (copy_ q0 q); [rewrite bind_Ok|by eexists].
  destruct (adjust_qk nheads k0) as [k|e] eqn:Hk; [|by eexists].
  exfalso. destruct Hshape as [Hs|Hs]; rewrite Hs in *.
  - destruct (adjust_qk_fail q0 nheads rows cols Hq0 Hno) as (w & Hw & _). congruence.
  - destruct (adjust_qk_fail k0 nheads rows cols Hk0 Hno) as (w & Hw & _). congruence.
Qed.

Lemma convert_layers_not_divisible nheads (freqs : tensor A) src ls j l rows cols :
  ls !! j = Some l →
  shape (Oss.q_proj l) = [rows; cols] ∨ shape (Oss.k_proj l) = [rows; cols] →
  ¬ (2 * nheads | Z.of_nat rows)%Z →
  ∀ i, ∃ e, convert_layers nheads freqs src i ls = Raise e.
Proof.
  intros Hj Hshape Hno. revert j Hj.
  induction ls as [|l0 ls IH]; intros j Hj i; [done|].
  cbn [convert_layers].
  destruct (getitem src i) as [s|e]; [rewrite bind_Ok|by eexists].
  destruct j as [|j]; simplify_eq/=.
  - destruct (convert_layer_not_divisible nheads freqs s l rows cols Hshape Hno)
      as (e & ->).
    by eexists.
  - destruct (convert_layer nheads freqs s l0); [rewrite bind_Ok|by eexists].
    destruct (IH j Hj (S i)) as (e & ->). by eexists.
Qed.

(** The loop reads the source layers at the positions of the target
    layers only. *)
Lemma convert_layers_take nheads (freqs : tensor A) src ls i :
  convert_layers nheads freqs (take (i + length ls) src) i ls
  = convert_layers nheads freqs src i ls.
Proof.
  revert i. induction ls as [|l ls IH]; intros i; [done|].
  cbn [convert_layers length].
  assert (getitem (take (i + S (length ls)) src) i = getitem src i) as ->.
  { unfold getitem. by rewrite lookup_take_lt by lia. }
  destruct (getitem src i) as [s|e]; [rewrite !bind_Ok|done].
  destruct (convert_layer nheads freqs s l); [rewrite !bind_Ok|done].
  rewrite <- (IH (S i)). by rewrite Nat.add_succ_r.
Qed.

(** More target layers than source layers: the loop cannot finish. *)
Lemma convert_layers_short nheads (freqs : tensor A) src ls i :
  ls ≠ [] → length src < i + length ls →
  ∃ e, convert_layers nheads freqs src i ls = Raise e.
Proof.
  revert i. induction ls as [|l ls IH]; intros i Hne Hlen; [done|].
  cbn [convert_layers]. unfold getitem.
  destruct (src !! i) as [s|] eqn:Hs; [rewrite bind_Ok|by eexists].
  apply lookup_lt_Some in Hs.
  destruct (convert_layer nheads freqs s l); [rewrite bind_Ok|by eexists].
  destruct ls as [|l' ls]; [simpl in Hlen; lia|].
  destruct (IH (S i)) as (e & ->); [done|simpl in *; lia|]. by eexists.
Qed.

(** With the source layers used up by as many well-formed target layers,
    the next target layer fails at the index into the source. *)
Lemma convert_layers_index_error nheads (freqs : tensor A) src ls extra :
  Forall2 (layer_well_formed nheads) src ls → extra ≠ [] →
  ∀ pre, convert_layers nheads freqs (pre ++ src) (length pre) (ls ++ extra)
         = Raise IndexError.
Proof.
  intros Hall Hne. induction Hall as [|s l src ls Hl _ IH]; intros pre.
  - destruct extra as [|l extra]; [done|].
    cbn [app convert_layers]. unfold getitem.
    rewrite lookup_ge_None_2 by (rewrite length_app; simpl; lia). done.
  - destruct (convert_layer_well_formed nheads freqs s l Hl) as (l' & Hl' & _).
    cbn [app convert_layers].
    rewrite getitem_middle, bind_Ok, Hl', bind_Ok.
    specialize (IH (pre ++ [s])).
    rewrite <- app_assoc, length_app, Nat.add_1_r in IH. cbn [app] in IH.
    by rewrite IH.
Qed.

(** The loop body on a layer in the target's layout whose q weight, or whose
    k weight after a fitting q weight, has a row count the head count does
    not divide as required: the view raises the shape error. *)
Lemma convert_layer_shape_error nheads (freqs : tensor A) s l rows cols :
  layer_layouts s l →
  shape (Fms.attn_query s) = [rows; cols]
  ∨ (fits_heads nheads (Fms.attn_query s) ∧ shape (Fms.attn_key s) = [rows; cols]) →
  ¬ (2 * nheads | Z.of_nat rows)%Z →
  ∃ w, convert_layer nheads freqs s l = Raise (RuntimeError w)
       ∧ ((0 < nheads)%Z → 0 < cols → w = ShapeInvalidForInputSize).
Proof.
  intros Hlay Hbad Hno%(not_divisible_not_fit _ _ cols).
  rewrite (convert_layer_layouts _ _ _ _ Hlay).
  destruct Hbad as [Hs|[Hfit Hs]].
  - destruct (adjust_qk_fail _ nheads rows cols Hs Hno) as (w & Hw & Hkind).
    exists w. by rewrite Hw, bind_Raise.
  - destruct (adjust_qk_copy_back _ _ Hfit) as (q' & Hq' & Hcq).
    destruct (adjust_qk_fail _ nheads rows cols Hs Hno) as (w & Hw & Hkind).
    exists w. by rewrite Hq', bind_Ok, Hcq, bind_Ok, Hw, bind_Raise.
Qed.

(** An error of the loop body after well-formed layers is the error of the
    loop. *)
Lemma convert_layers_prefix_error nheads (freqs : tensor A)
    pre_s s post_s pre_l l post_l e :
  Forall2 (layer_well_formed nheads) pre_s pre_l →
  convert_layer nheads freqs s l = Raise e →
  ∀ pre, convert_layers nheads freqs (pre ++ pre_s ++ s :: post_s) (length pre)
           (pre_l ++ l :: post_l)
         = Raise e.
Proof.
  intros Hall He. induction Hall as [|s0 l0 pre_s pre_l Hl _ IH]; intros pre.
  - cbn [app convert_layers]. by rewrite getitem_middle, bind_Ok, He.
  - destruct (convert_layer_well_formed nheads freqs s0 l0 Hl) as (l' & Hl' & _).
    cbn [app convert_layers].
    rewrite getitem_middle, bind_Ok, Hl', bind_Ok.
    specialize (IH (pre ++ [s0])).
    rewrite <- app_assoc, length_app, Nat.add_1_r in IH. cbn [app] in IH.
    by rewrite IH.
Qed.

End Failures.

(** * The weight translation *)

Section Translation.
Context {A : Type} `{!Inhabited A}.
Implicit Types (s : Fms.layer A) (l : Oss.layer A).

Lemma Forall2_translated nheads (freqs : tensor A) src tgt ls
    (P : Fms.layer A → Oss.layer A → Prop) :
  Forall2 (layer_well_formed nheads) src tgt →
  Forall2 (translated_layer nheads freqs) src ls →
  (∀ s l0 l, layer_well_formed nheads s l0 →
             translated_layer nheads freqs s l → P s l) →
  Forall2 P src ls.
Proof.
  intros Hwf Htr HP. revert ls Htr.
  induction Hwf as [|s l0 src tgt Hs _ IH]; intros ls Htr.
  - inversion Htr. constructor.
  - inversion Htr as [|? l ? ls' Hl Hls']; subst.
    constructor; [by eapply HP|by apply IH].
Qed.

Lemma adjusted_rows_permuted nheads (q q' : tensor A) :
  fits_heads nheads q → wf q → adjust_qk nheads q = Ok q' →
  rows_permuted nheads q q'.
Proof.
  intros Hadm Hwf Hq'.
  destruct (adjust_qk_fits _ _ Hadm) as (n & m & c & -> & Hn & Hc & Hs & Hq).
  rewrite Hq in Hq'. injection Hq' as <-.
  exists (n * (m * 2)), c. split; [done|]. split; [done|].
  rewrite Nat2Z.id, (Nat.mul_comm n), Nat.div_mul by lia. split.
  - intros r Hr. rewrite (Nat.mul_comm (m * 2) n). apply adjusted_rows; try done. lia.
  - rewrite (Nat.mul_comm (m * 2) n). apply row_source_bijective.
Qed.

Lemma adjusted_shape_Permutation nheads (q q' : tensor A) :
  fits_heads nheads q → wf q → adjust_qk nheads q = Ok q' →
  shape q' = shape q ∧ data q' ≡ₚ data q.
Proof.
  intros Hadm Hwf Hq'.
  destruct (adjust_qk_fits _ _ Hadm) as (n & m & c & -> & Hn & Hc & Hs & Hq).
  rewrite Hq in Hq'. injection Hq' as <-. cbn [shape data]. split; [done|].
  by apply adjusted_Permutation.
Qed.

Lemma adjusted_back nheads (q q' : tensor A) :
  fits_heads nheads q → wf q → adjust_qk nheads q = Ok q' →
  adjust_qk_back nheads q' = Ok q.
Proof.
  intros Hadm Hwf Hq'.
  destruct (adjust_qk_round_trip _ _ Hadm Hwf) as (q'' & Hq'' & Hback).
  congruence.
Qed.

End Translation.

(** Discharging well-formedness on the sample inputs. *)
Ltac sample_layout := split; vm_compute; reflexivity.
Ltac sample_fits :=
  eexists _, _; split; [reflexivity|];
  split; [lia|]; split; [lia|];
  apply Z.mod_divide; [lia|reflexivity].
Ltac sample_well_formed :=
  split; [sample_layout|];
  cbn [Sample.fms Sample.oss Fms.layers Oss.layers Fms.nheads
       fmap list_fmap seq replicate];
  repeat (apply List.Forall2_cons; [|]); [..|apply List.Forall2_nil];
  (unfold layer_well_formed, layer_layouts;
   repeat lazymatch goal with |- _ ∧ _ => split end;
   first [sample_layout | sample_fits]).

(** C1. For every layer, the translation lays the q and k weights out by
    reading the row dimension as [nheads, head_dim/2, 2], exchanging the last
    two axes and flattening back: every row of the result is a row of the
    source, unchanged, and the row mapping is a bijection on
    [0, output_dim). *)
Theorem qk_translation_permutes_rows {A} `{!Inhabited A}
    (hf_model : Fms.model A) (oss_hf_model : Oss.model A) :
  well_formed hf_model oss_hf_model →
  ∃ out,
    _oss_hf_model hf_model oss_hf_model = Ok out
    ∧ Forall2
        (λ s l,
           rows_permuted (Fms.nheads hf_model) (Fms.attn_query s) (Oss.q_proj l)
           ∧ rows_permuted (Fms.nheads hf_model) (Fms.attn_key s) (Oss.k_proj l))
        (Fms.layers hf_model) (Oss.layers out).
Proof.
  intros Hwf. destruct (translate_well_formed _ _ Hwf) as (ls & Hrun & Hls).
  eexists. split; [exact Hrun|]. cbn [Oss.layers].
  destruct Hwf as [_ Hwf].
  eapply Forall2_translated; [exact Hwf|exact Hls|].
  intros s l0 l (([_ Hq] & [_ Hk] & _) & Haq & Hak)
    (q & k & Hq' & Hk' & ->).
  cbn [Oss.q_proj Oss.k_proj].
  split; by apply adjusted_rows_permuted.
Qed.

Lemma qk_translation_permutes_rows_witness :
  ∃ out,
    _oss_hf_model (Sample.fms 1 4 2) (Sample.oss 4 2) = Ok out
    ∧ Forall2
        (λ s l,
           rows_permuted 1 (Fms.attn_query s) (Oss.q_proj l)
           ∧ rows_permuted 1 (Fms.attn_key s) (Oss.k_proj l))
        (Fms.layers (Sample.fms 1 4 2)) (Oss.layers out).
Proof.
  apply (qk_translation_permutes_rows (Sample.fms 1 4 2) (Sample.oss 4 2)).
  sample_well_formed.
Defined.

(** C2 (amended). The q/k row permutation is not its own inverse.  With
    [translate_back] the adjustment in the exchanged layout
    ([adjust_qk_back]), translating and translating back gives the original q
    and k weights exactly, for every well-formed input. *)
Theorem qk_round_trip {A} `{!Inhabited A}
    (hf_model : Fms.model A) (oss_hf_model : Oss.model A) :
  well_formed hf_model oss_hf_model →
  ∃ out,
    _oss_hf_model hf_model oss_hf_model = Ok out
    ∧ Forall2
        (λ s l,
           adjust_qk_back (Fms.nheads hf_model) (Oss.q_proj l) = Ok (Fms.attn_query s)
           ∧ adjust_qk_back (Fms.nheads hf_model) (Oss.k_proj l) = Ok (Fms.attn_key s))
        (Fms.layers hf_model) (Oss.layers out).
Proof.
  intros Hwf. destruct (translate_well_formed _ _ Hwf) as (ls & Hrun & Hls).
  eexists. split; [exact Hrun|]. cbn [Oss.layers].
  destruct Hwf as [_ Hwf].
  eapply Forall2_translated; [exact Hwf|exact Hls|].
  intros s l0 l (([_ Hq] & [_ Hk] & _) & Haq & Hak)
    (q & k & Hq' & Hk' & ->).
  cbn [Oss.q_proj Oss.k_proj].
  split; by eapply adjusted_back.
Qed.

Lemma qk_round_trip_witness :
  ∃ out,
    _oss_hf_model (Sample.fms 1 6 2) (Sample.oss 6 2) = Ok out
    ∧ Forall2
        (λ s l,
           adjust_qk_back 1 (Oss.q_proj l) = Ok (Fms.attn_query s)
           ∧ adjust_qk_back 1 (Oss.k_proj l) = Ok (Fms.attn_key s))
        (Fms.layers (Sample.fms 1 6 2)) (Oss.layers out).
Proof.
  apply (qk_round_trip (Sample.fms 1 6 2) (Sample.oss 6 2)).
  sample_well_formed.
Defined.

(** C2 as stated fails: on a well-formed 6-row weight with one head, the
    permutation applied twice does not give the weight back. *)
Lemma qk_adjust_twice_not_identity :
  let q := Sample.iota [6; 2] 0 in
  fits_heads 1 q ∧ wf q
  ∧ ∃ q1 q2, adjust_qk 1 q = Ok q1 ∧ adjust_qk 1 q1 = Ok q2 ∧ q2 ≠ q.
Proof.
  split; [sample_fits|]. split; [reflexivity|].
  eexists _, _. split; [vm_compute; reflexivity|].
  split; [vm_compute; reflexivity|]. vm_compute. discriminate.
Qed.

(** C3. The translation leaves every tensor other than the q and k weights
    as it is in the source: embedding, final norm and output head, and in
    every layer v, o, gate, up, down, the two layer norms and the rotary
    frequencies. *)
Theorem translation_frame {A} `{!Inhabited A}
    (hf_model : Fms.model A) (oss_hf_model : Oss.model A) :
  well_formed hf_model oss_hf_model →
  ∃ out,
    _oss_hf_model hf_model oss_hf_model = Ok out
    ∧ Oss.embed_tokens out = Fms.embedding hf_model
    ∧ Oss.norm out = Fms.dec_norm hf_model
    ∧ Oss.lm_head out = Fms.lm_head hf_model
    ∧ Forall2
        (λ s l,
           Oss.v_proj l = Fms.attn_value s
           ∧ Oss.o_proj l = Fms.attn_dense s
           ∧ Oss.gate_proj l = Fms.ff_wg s
           ∧ Oss.up_proj l = Fms.ff_w1 s
           ∧ Oss.down_proj l = Fms.ff_w2 s
           ∧ Oss.input_layernorm l = Fms.ln s
           ∧ Oss.post_attention_layernorm l = Fms.ff_ln s
           ∧ Oss.inv_freqs l = Some (Fms.rot_emb_freqs hf_model))
        (Fms.layers hf_model) (Oss.layers out).
Proof.
  intros Hwf. destruct (translate_well_formed _ _ Hwf) as (ls & Hrun & Hls).
  eexists. split; [exact Hrun|]. cbn [Oss.embed_tokens Oss.norm Oss.lm_head Oss.layers].
  do 3 (split; [reflexivity|]).
  destruct Hwf as [_ Hwf].
  eapply Forall2_translated; [exact Hwf|exact Hls|].
  intros s l0 l _ (q & k & _ & _ & ->). by cbn.
Qed.

Lemma translation_frame_witness :
  ∃ out,
    _oss_hf_model (Sample.fms 1 4 2) (Sample.oss 4 2) = Ok out
    ∧ Oss.embed_tokens out = Fms.embedding (Sample.fms 1 4 2)
    ∧ Oss.norm out = Fms.dec_norm (Sample.fms 1 4 2)
    ∧ Oss.lm_head out = Fms.lm_head (Sample.fms 1 4 2)
    ∧ Forall2
        (λ s l,
           Oss.v_proj l = Fms.attn_value s
           ∧ Oss.o_proj l = Fms.attn_dense s
           ∧ Oss.gate_proj l = Fms.ff_wg s
           ∧ Oss.up_proj l = Fms.ff_w1 s
           ∧ Oss.down_proj l = Fms.ff_w2 s
           ∧ Oss.input_layernorm l = Fms.ln s
           ∧ Oss.post_attention_layernorm l = Fms.ff_ln s
           ∧ Oss.inv_freqs l = Some (Fms.rot_emb_freqs (Sample.fms 1 4 2)))
        (Fms.layers (Sample.fms 1 4 2)) (Oss.layers out).
Proof.
  apply (translation_frame (Sample.fms 1 4 2) (Sample.oss 4 2)).
  sample_well_formed.
Defined.

(** C4. A q or k weight whose row count is not divisible as the head count
    requires makes the translation fail: the view raises torch's
    [RuntimeError] for an invalid shape, no model is returned, and in an input
    well formed up to that weight the shape error is the error of the
    translation. *)
Theorem indivisible_rows_fail {A} `{!Inhabited A}
    (nheads : Z) (rows cols : nat) :
  ¬ (2 * nheads | Z.of_nat rows)%Z →
  (∀ q : tensor A, shape q = [rows; cols] →
     ∃ w, adjust_qk nheads q = Raise (RuntimeError w)
          ∧ ((0 < nheads)%Z → 0 < cols → w = ShapeInvalidForInputSize))
  ∧ (∀ (hf_model : Fms.model A) (oss_hf_model : Oss.model A) i l,
       Fms.nheads hf_model = nheads →
       Oss.layers oss_hf_model !! i = Some l →
       shape (Oss.q_proj l) = [rows; cols] ∨ shape (Oss.k_proj l) = [rows; cols] →
       ∃ e, _oss_hf_model hf_model oss_hf_model = Raise e)
  ∧ (∀ (hf_model : Fms.model A) (oss_hf_model : Oss.model A)
       pre_s s post_s pre_l l post_l,
       Fms.nheads hf_model = nheads →
       Fms.layers hf_model = pre_s ++ s :: post_s →
       Oss.layers oss_hf_model = pre_l ++ l :: post_l →
       same_layout (Fms.embedding hf_model) (Oss.embed_tokens oss_hf_model) →
       Forall2 (layer_well_formed nheads) pre_s pre_l →
       layer_layouts s l →
       shape (Fms.attn_query s) = [rows; cols]
       ∨ (fits_heads nheads (Fms.attn_query s)
          ∧ shape (Fms.attn_key s) = [rows; cols]) →
       ∃ w, _oss_hf_model hf_model oss_hf_model = Raise (RuntimeError w)
            ∧ ((0 < nheads)%Z → 0 < cols → w = ShapeInvalidForInputSize)).
Proof.
  intros Hno. split; [|split].
  - intros q Hs. apply (adjust_qk_fail q nheads rows cols Hs).
    by apply not_divisible_not_fit.
  - intros hf_model oss_hf_model i l <- Hi Hshape. unfold _oss_hf_model.
    destruct (copy_ _ _); [rewrite bind_Ok|by eexists].
    destruct (convert_layers_not_divisible (Fms.nheads hf_model)
                (Fms.rot_emb_freqs hf_model) (Fms.layers hf_model)
                _ _ _ _ _ Hi Hshape Hno 0) as (e & ->).
    by eexists.
  - intros hf_model oss_hf_model pre_s s post_s pre_l l post_l
      <- Hsrc Htgt [He1 He2] Hpre Hlay Hbad.
    destruct (convert_layer_shape_error (Fms.nheads hf_model)
                (Fms.rot_emb_freqs hf_model) s l rows cols Hlay Hbad Hno)
      as (w & Hw & Hkind).
    exists w. split; [|done].
    unfold _oss_hf_model. rewrite copy_same_shape by done.
    rewrite bind_Ok, Hsrc, Htgt.
    pose proof (convert_layers_prefix_error _ _ _ _ post_s _ _ post_l _ Hpre Hw [])
      as E.
    cbn [app length] in E. by rewrite E.
Qed.

Lemma indivisible_rows_fail_witness :
  ¬ (2 * 3 | Z.of_nat 10)%Z
  ∧ (∃ w, adjust_qk 3 (Sample.iota [10; 2] 0) = Raise (RuntimeError w)
          ∧ ((0 < 3)%Z → 0 < 2 → w = ShapeInvalidForInputSize))
  ∧ (∃ e, _oss_hf_model (Sample.fms 3 10 2) (Sample.oss 10 2) = Raise e)
  ∧ (∃ w, _oss_hf_model (Sample.fms 3 10 2) (Sample.oss 10 2)
          = Raise (RuntimeError w)
          ∧ ((0 < 3)%Z → 0 < 2 → w = ShapeInvalidForInputSize)).
Proof.
  assert (Hno : ¬ (2 * 3 | Z.of_nat 10)%Z) by (intros [k Hk]; lia).
  split; [exact Hno|].
  destruct (indivisible_rows_fail (A := Z) 3 10 2 Hno) as (Ht & Hm & Hw).
  split; [|split].
  - apply Ht. reflexivity.
  - apply (Hm (Sample.fms 3 10 2) (Sample.oss 10 2) 0 (Sample.oss_layer 10));
      [reflexivity|reflexivity|left; reflexivity].
  - apply (Hw (Sample.fms 3 10 2) (Sample.oss 10 2)
             [] (Sample.fms_layer 10 0) [Sample.fms_layer 10 1000]
             [] (Sample.oss_layer 10) [Sample.oss_layer 10]).
    + reflexivity.
    + reflexivity.
    + reflexivity.
    + sample_layout.
    + apply List.Forall2_nil.
    + unfold layer_layouts.
      repeat lazymatch goal with |- _ ∧ _ => split end; sample_layout.
    + left. reflexivity.
Defined.

(** The example of the spec, evaluated: three heads against ten rows. *)
Example ten_rows_three_heads :
  _oss_hf_model (Sample.fms 3 10 2) (Sample.oss 10 2)
  = Raise (RuntimeError ShapeInvalidForInputSize).
Proof. vm_compute. reflexivity. Qed.

(** C5 (amended). A target with more layers than the source makes the
    translation fail: no model is returned, and when the source and the first
    target layers are well formed the error is the [IndexError] of the index
    into the source layers.  A target with fewer layers raises no error: the
    source layers beyond the target's count are not read. *)
Theorem layer_count_mismatch {A} `{!Inhabited A}
    (hf_model : Fms.model A) (oss_hf_model : Oss.model A) :
  (length (Fms.layers hf_model) < length (Oss.layers oss_hf_model) →
     (∃ e, _oss_hf_model hf_model oss_hf_model = Raise e)
     ∧ (well_formed hf_model
          (oss_with_layers oss_hf_model
             (take (length (Fms.layers hf_model)) (Oss.layers oss_hf_model))) →
        _oss_hf_model hf_model oss_hf_model = Raise IndexError))
  ∧ _oss_hf_model hf_model oss_hf_model
    = _oss_hf_model
        (fms_with_layers hf_model
           (take (length (Oss.layers oss_hf_model)) (Fms.layers hf_model)))
        oss_hf_model.
Proof.
  split.
  - intros Hlt. split.
    + unfold _oss_hf_model.
      destruct (copy_ _ _); [rewrite bind_Ok|by eexists].
      destruct (convert_layers_short (Fms.nheads hf_model)
                  (Fms.rot_emb_freqs hf_model) (Fms.layers hf_model)
                  (Oss.layers oss_hf_model) 0) as (e & ->).
      * intros E. rewrite E in Hlt. simpl in Hlt. lia.
      * lia.
      * by eexists.
    + intros [[He1 He2] Hls]. cbn [oss_with_layers Oss.embed_tokens Oss.layers] in *.
      unfold _oss_hf_model. rewrite copy_same_shape by done. rewrite bind_Ok.
      rewrite <- (take_drop (length (Fms.layers hf_model)) (Oss.layers oss_hf_model)) at 1.
      rewrite (convert_layers_index_error _ _ _ _ _ Hls) with (pre := []); [done|].
      intros E. apply (f_equal length) in E.
      rewrite length_drop in E. simpl in E. lia.
  - unfold _oss_hf_model. cbn [fms_with_layers Fms.embedding Fms.nheads
      Fms.rot_emb_freqs Fms.layers Fms.dec_norm Fms.lm_head].
    pose proof (convert_layers_take (Fms.nheads hf_model)
                  (Fms.rot_emb_freqs hf_model) (Fms.layers hf_model)
                  (Oss.layers oss_hf_model) 0) as E.
    cbn [Nat.add] in E. by rewrite E.
Qed.

Lemma layer_count_mismatch_witness :
  length (Fms.layers (Sample.fms 1 4 1)) < length (Oss.layers (Sample.oss 4 2))
  ∧ _oss_hf_model (Sample.fms 1 4 1) (Sample.oss 4 2) = Raise IndexError.
Proof.
  assert (Hlt : length (Fms.layers (Sample.fms 1 4 1))
                < length (Oss.layers (Sample.oss 4 2))) by (vm_compute; lia).
  split; [exact Hlt|].
  apply (proj1 (layer_count_mismatch (Sample.fms 1 4 1) (Sample.oss 4 2)) Hlt).
  split; [sample_layout|].
  cbn [Sample.fms Sample.oss oss_with_layers Fms.layers Oss.layers Fms.nheads
       fmap list_fmap seq replicate length take].
  repeat (apply List.Forall2_cons; [|]); [..|apply List.Forall2_nil];
  (unfold layer_well_formed, layer_layouts;
   repeat lazymatch goal with |- _ ∧ _ => split end;
   first [sample_layout | sample_fits]).
Defined.

(** C5 as stated fails: with two source layers and one target layer the
    translation returns a model, holding the first source layer only. *)
Lemma fewer_target_layers_no_error :
  length (Fms.layers (Sample.fms 1 4 2)) ≠ length (Oss.layers (Sample.oss 4 1))
  ∧ ∃ out, _oss_hf_model (Sample.fms 1 4 2) (Sample.oss 4 1) = Ok out
           ∧ length (Oss.layers out) = 1.
Proof.
  split; [vm_compute; lia|].
  eexists. split; [vm_compute; reflexivity|reflexivity].
Qed.

(** C6. On a well-formed input the translated q and k weights have the shape
    of the source's, and hold the same scalars, each as often: nothing is
    summed, rounded or dropped. *)
Theorem qk_shape_preserved {A} `{!Inhabited A}
    (hf_model : Fms.model A) (oss_hf_model : Oss.model A) :
  well_formed hf_model oss_hf_model →
  ∃ out,
    _oss_hf_model hf_model oss_hf_model = Ok out
    ∧ Forall2
        (λ s l,
           (shape (Oss.q_proj l) = shape (Fms.attn_query s)
            ∧ data (Oss.q_proj l) ≡ₚ data (Fms.attn_query s))
           ∧ (shape (Oss.k_proj l) = shape (Fms.attn_key s)
              ∧ data (Oss.k_proj l) ≡ₚ data (Fms.attn_key s)))
        (Fms.layers hf_model) (Oss.layers out).
Proof.
  intros Hwf. destruct (translate_well_formed _ _ Hwf) as (ls & Hrun & Hls).
  eexists. split; [exact Hrun|]. cbn [Oss.layers].
  destruct Hwf as [_ Hwf].
  eapply Forall2_translated; [exact Hwf|exact Hls|].
  intros s l0 l (([_ Hq] & [_ Hk] & _) & Haq & Hak)
    (q & k & Hq' & Hk' & ->).
  cbn [Oss.q_proj Oss.k_proj].
  split; by eapply adjusted_shape_Permutation.
Qed.

Lemma qk_shape_preserved_witness :
  ∃ out,
    _oss_hf_model (Sample.fms 2 8 2) (Sample.oss 8 2) = Ok out
    ∧ Forall2
        (λ s l,
           (shape (Oss.q_proj l) = shape (Fms.attn_query s)
            ∧ data (Oss.q_proj l) ≡ₚ data (Fms.attn_query s))
           ∧ (shape (Oss.k_proj l) = shape (Fms.attn_key s)
              ∧ data (Oss.k_proj l) ≡ₚ data (Fms.attn_key s)))
        (Fms.layers (Sample.fms 2 8 2)) (Oss.layers out).
Proof.
  apply (qk_shape_preserved (Sample.fms 2 8 2) (Sample.oss 8 2)).
  sample_well_formed.
Defined.

(** * The configuration *)

Module ConfigFacts.
Import LLaMAHFConfig.

Lemma lookup_foldr_delete {V} (m : gmap string V) ks k :
  k ∉ ks → foldr delete m ks !! k = m !! k.
Proof.
  induction ks as [|k' ks IH]; cbn [foldr]; intros Hk; [done|].
  apply not_elem_of_cons in Hk as [Hne Hk].
  rewrite lookup_delete_ne by done. by apply IH.
Qed.

Lemma lookup_foldr_delete_elem {V} (m : gmap string V) ks k :
  k ∈ ks → foldr delete m ks !! k = None.
Proof.
  induction ks as [|k' ks IH]; cbn [foldr]; intros Hk.
  - by apply elem_of_nil in Hk.
  - destruct (decide (k = k')) as [->|Hne].
    + apply lookup_delete_eq.
    + rewrite lookup_delete_ne by done. apply IH.
      apply elem_of_cons in Hk as [?|?]; done.
Qed.

Ltac not_among :=
  let H := fresh in
  intros H; repeat (apply elem_of_cons in H as [H|H]; [discriminate H|]);
  by apply elem_of_nil in H.

Ltac lookups :=
  repeat first
    [ rewrite lookup_insert_eq
    | rewrite lookup_insert_ne by discriminate
    | rewrite lookup_singleton_ne by discriminate
    | rewrite lookup_empty ].

Lemma pretrained_init_other self kwargs k :
  k ∉ popped → PretrainedConfig_init self kwargs !! k = kwargs !! k ∪ self !! k.
Proof.
  intros Hk. unfold PretrainedConfig_init.
  rewrite lookup_union, lookup_foldr_delete by done. f_equal.
  rewrite !lookup_insert_ne; [done|intros <-; apply Hk..]; unfold popped; set_solver.
Qed.

Lemma init_own args k :
  k ∈ own_attributes → __init__ args !! k = Some (arg args k).
Proof.
  intros Hk. unfold __init__, own_attributes in *. cbn [foldl list_to_map foldr fst snd].
  repeat (apply elem_of_cons in Hk as [->|Hk]); [..|by apply elem_of_nil in Hk];
    (rewrite pretrained_init_other by not_among; by lookups).
Qed.

Lemma init_pad_token_id args :
  __init__ args !! "pad_token_id" = Some (arg args "pad_token_id").
Proof.
  unfold __init__, PretrainedConfig_init. cbn [list_to_map foldr fst snd].
  rewrite lookup_union, lookup_foldr_delete_elem by (unfold popped; set_solver).
  lookups. reflexivity.
Qed.

Lemma init_tie_word_embeddings args :
  __init__ args !! "tie_word_embeddings" = Some (VBool false).
Proof.
  unfold __init__, PretrainedConfig_init. cbn [list_to_map foldr fst snd].
  rewrite lookup_union, lookup_foldr_delete_elem by (unfold popped; set_solver).
  lookups. reflexivity.
Qed.

Lemma init_pad_id args : __init__ args !! "pad_id" = None.
Proof.
  unfold __init__, own_attributes. cbn [foldl list_to_map foldr fst snd].
  rewrite pretrained_init_other by not_among. by lookups.
Qed.

Lemma lookup_from_dict config_dict kwargs k :
  from_dict config_dict kwargs !! k
  = cur ← __init__ config_dict !! k;
    Some (default cur (foldr delete kwargs from_dict_popped !! k)).
Proof. unfold from_dict. by rewrite map_lookup_imap. Qed.

(** A keyword argument absent from [hf_kwargs] leaves the attribute of the
    constructor in place. *)
Lemma lookup_from_dict_absent config_dict kwargs k :
  kwargs !! k = None →
  from_dict config_dict kwargs !! k = __init__ config_dict !! k.
Proof.
  intros Hk. rewrite lookup_from_dict.
  assert (foldr delete kwargs from_dict_popped !! k = None) as ->.
  { destruct (decide (k ∈ from_dict_popped)).
    - by apply lookup_foldr_delete_elem.
    - by rewrite lookup_foldr_delete. }
  by destruct (__init__ config_dict !! k).
Qed.

Lemma renamed_Ok config_dict v :
  config_dict !! "pad_id" = Some v →
  renamed config_dict = Ok (<["pad_token_id" := v]> (delete "pad_id" config_dict)).
Proof. intros Hv. unfold renamed, pop. by rewrite Hv. Qed.

Lemma renamed_Raise config_dict :
  config_dict !! "pad_id" = None → renamed config_dict = Raise (KeyError "pad_id").
Proof. intros Hv. unfold renamed, pop. by rewrite Hv. Qed.

End ConfigFacts.

(** C7. From a source configuration with a [pad_id], [from_fms_config]
    produces a configuration by renaming only: its [pad_token_id] is the
    source's [pad_id], and every hyperparameter of the source that the
    constructor names is in the result under its name with its value.
    (Extra keyword arguments are taken not to name these attributes; without
    extra keyword arguments this holds trivially.) *)
Theorem from_fms_config_renames
    (config_dict hf_kwargs : gmap string pyval) (pad_id : pyval) :
  config_dict !! "pad_id" = Some pad_id →
  (∀ k, k ∈ "pad_token_id" :: LLaMAHFConfig.own_attributes → hf_kwargs !! k = None) →
  ∃ cfg,
    LLaMAHFConfig.from_fms_config config_dict hf_kwargs = Ok cfg
    ∧ cfg !! "pad_token_id" = Some pad_id
    ∧ ∀ k v, k ∈ LLaMAHFConfig.own_attributes →
             config_dict !! k = Some v → cfg !! k = Some v.
Proof.
  intros Hpad Hkw. unfold LLaMAHFConfig.from_fms_config.
  rewrite (ConfigFacts.renamed_Ok _ _ Hpad), bind_Ok.
  eexists. split; [done|]. split.
  - rewrite ConfigFacts.lookup_from_dict_absent by (apply Hkw, list_elem_of_here).
    rewrite ConfigFacts.init_pad_token_id. unfold LLaMAHFConfig.arg.
    by rewrite lookup_insert_eq.
  - intros k v Hk Hv.
    rewrite ConfigFacts.lookup_from_dict_absent
      by (by apply Hkw, list_elem_of_further).
    rewrite ConfigFacts.init_own by done. unfold LLaMAHFConfig.arg.
    assert (k ≠ "pad_token_id" ∧ k ≠ "pad_id") as [Hne1 Hne2].
    { unfold LLaMAHFConfig.own_attributes in Hk.
      split; intros ->; revert Hk; ConfigFacts.not_among. }
    rewrite lookup_insert_ne, lookup_delete_ne, Hv by congruence.
    by destruct (LLaMAHFConfig.defaults !! k).
Qed.

Lemma from_fms_config_renames_witness :
  ∃ cfg,
    LLaMAHFConfig.from_fms_config Sample.fms_config
      (list_to_map [("eos_token_id", VInt 2); ("bos_token_id", VInt 1)]) = Ok cfg
    ∧ cfg !! "pad_token_id" = Some (VInt 0)
    ∧ ∀ k v, k ∈ LLaMAHFConfig.own_attributes →
             Sample.fms_config !! k = Some v → cfg !! k = Some v.
Proof.
  apply (from_fms_config_renames Sample.fms_config
           (list_to_map [("eos_token_id", VInt 2); ("bos_token_id", VInt 1)])
           (VInt 0)).
  - vm_compute. reflexivity.
  - intros k Hk. unfold LLaMAHFConfig.own_attributes in Hk.
    repeat (apply elem_of_cons in Hk as [->|Hk]); [..|by apply elem_of_nil in Hk];
      vm_compute; reflexivity.
Defined.

(** C8. Every configuration the constructor builds has
    [tie_word_embeddings] equal to [False], whatever the arguments. *)
Theorem init_never_ties (args : gmap string pyval) :
  LLaMAHFConfig.__init__ args !! "tie_word_embeddings" = Some (VBool false).
Proof. apply ConfigFacts.init_tie_word_embeddings. Qed.

(** C9. Without a ["pad_id"] key in the dictionary of the source,
    [from_fms_config] raises [KeyError]; when it succeeds, neither the
    dictionary it hands to [from_dict] nor the configuration it returns has
    a ["pad_id"] entry. *)
Theorem from_fms_config_pad_id (config_dict hf_kwargs : gmap string pyval) :
  (config_dict !! "pad_id" = None →
     LLaMAHFConfig.from_fms_config config_dict hf_kwargs = Raise (KeyError "pad_id"))
  ∧ (∀ cfg,
       LLaMAHFConfig.from_fms_config config_dict hf_kwargs = Ok cfg →
       ∃ d, LLaMAHFConfig.renamed config_dict = Ok d
            ∧ d !! "pad_id" = None
            ∧ cfg = LLaMAHFConfig.from_dict d hf_kwargs
            ∧ cfg !! "pad_id" = None).
Proof.
  split.
  - intros Hno. unfold LLaMAHFConfig.from_fms_config.
    rewrite (ConfigFacts.renamed_Raise _ Hno). reflexivity.
  - intros cfg Hcfg. unfold LLaMAHFConfig.from_fms_config in Hcfg.
    destruct (config_dict !! "pad_id") as [v|] eqn:Hv.
    + rewrite (ConfigFacts.renamed_Ok _ _ Hv), bind_Ok in Hcfg.
      assert (cfg = LLaMAHFConfig.from_dict
                      (<["pad_token_id" := v]> (delete "pad_id" config_dict))
                      hf_kwargs) as -> by congruence.
      eexists. split; [by apply ConfigFacts.renamed_Ok|].
      split; [|split; [reflexivity|]].
      * rewrite lookup_insert_ne by discriminate. apply lookup_delete_eq.
      * rewrite ConfigFacts.lookup_from_dict, ConfigFacts.init_pad_id. reflexivity.
    + rewrite (ConfigFacts.renamed_Raise _ Hv) in Hcfg. discriminate.
Qed.

Lemma from_fms_config_pad_id_witness :
  LLaMAHFConfig.from_fms_config (delete "pad_id" Sample.fms_config) ∅
  = Raise (KeyError "pad_id")
  ∧ ∃ cfg d,
      LLaMAHFConfig.from_fms_config Sample.fms_config ∅ = Ok cfg
      ∧ LLaMAHFConfig.renamed Sample.fms_config = Ok d
      ∧ d !! "pad_id" = None ∧ cfg !! "pad_id" = None.
Proof.
  assert (Hpad : Sample.fms_config !! "pad_id" = Some (VInt 0))
    by (vm_compute; reflexivity).
  assert (Hrun : LLaMAHFConfig.from_fms_config Sample.fms_config ∅
                 = Ok (LLaMAHFConfig.from_dict
                         (<["pad_token_id" := VInt 0]>
                            (delete "pad_id" Sample.fms_config)) ∅)).
  { unfold LLaMAHFConfig.from_fms_config.
    rewrite (ConfigFacts.renamed_Ok _ _ Hpad), bind_Ok. reflexivity. }
  split.
  - apply (proj1 (from_fms_config_pad_id (delete "pad_id" Sample.fms_config) ∅)).
    apply lookup_delete_eq.
  - destruct (proj2 (from_fms_config_pad_id Sample.fms_config ∅) _ Hrun)
      as (d & Hd & Hnone & _ & Hc).
    eexists _, d. split; [exact Hrun|]. split; [exact Hd|]. split; [exact Hnone|exact Hc].
Defined.

(** * The padding of a prompt *)

(** C10. For a prompt no longer than [pad_len], [pad_prompt] returns
    [pad_len] token ids: first [pad_len - len(prompt)] times the id of the
    pad token, then the prompt; a prompt of length [pad_len] is returned as
    it is. *)
Theorem pad_prompt_pads (convert_tokens_to_ids : string → Z)
    (prompt : list Z) (pad_len : Z) (pad_token : string) :
  (Z.of_nat (length prompt) ≤ pad_len)%Z →
  let out := pad_prompt convert_tokens_to_ids prompt pad_len pad_token in
  let to_pad := Z.to_nat (pad_len - Z.of_nat (length prompt)) in
  Z.of_nat (length out) = pad_len
  ∧ take to_pad out = replicate to_pad (convert_tokens_to_ids pad_token)
  ∧ drop to_pad out = prompt
  ∧ (Z.of_nat (length prompt) = pad_len → out = prompt).
Proof.
  intros Hle out to_pad. subst out to_pad. unfold pad_prompt.
  destruct (Z.eqb_spec (pad_len - Z.of_nat (length prompt)) 0) as [E|E].
  - rewrite E. cbn [Z.to_nat]. rewrite take_0, drop_0.
    repeat split; [lia|done..].
  - set (n := Z.to_nat (pad_len - Z.of_nat (length prompt))).
    repeat split.
    + rewrite length_app, length_replicate. lia.
    + by rewrite take_app_length' by (by rewrite length_replicate).
    + by rewrite drop_app_length' by (by rewrite length_replicate).
    + lia.
Qed.

Lemma pad_prompt_pads_witness :
  let tok := λ s : string, if String.eqb s "<unk>" then 0%Z else 7%Z in
  let out := pad_prompt tok [1; 15; 9]%Z 5 "<unk>" in
  Z.of_nat (length out) = 5%Z
  ∧ take 2 out = [0; 0]%Z
  ∧ drop 2 out = [1; 15; 9]%Z
  ∧ (Z.of_nat (length [1; 15; 9]%Z) = 5%Z → out = [1; 15; 9]%Z).
Proof.
  apply (pad_prompt_pads
           (λ s : string, if String.eqb s "<unk>" then 0%Z else 7%Z)
           [1; 15; 9]%Z 5 "<unk>").
  simpl. lia.
Defined.

(** * Further properties of the adjustment *)

(** X1. On a q or k matrix the adjustment returns a tensor exactly when the
    head count fits: it is positive, the matrix has a column, and twice the
    head count divides the number of rows. *)
Theorem adjust_qk_succeeds_iff {A} `{!Inhabited A}
    (nheads : Z) (q : tensor A) (rows cols : nat) :
  shape q = [rows; cols] →
  is_ok (adjust_qk nheads q) = true ↔ heads_fit nheads rows cols.
Proof.
  intros Hs. split.
  - destruct (adjust_qk nheads q) as [q'|e] eqn:Hq; [intros _|done].
    destruct (adjust_qk_inv q nheads rows cols q' Hs Hq)
      as (n & m & -> & Hn & Hc & -> & _).
    split; [lia|]. split; [done|]. exists (Z.of_nat m). lia.
  - intros Hfit.
    destruct (heads_fit_split _ _ _ Hfit) as (n & m & -> & Hn & ->).
    destruct Hfit as (_ & Hc & _).
    by rewrite (adjust_qk_ok q n m cols).
Qed.

Lemma adjust_qk_succeeds_iff_witness :
  is_ok (adjust_qk 2 (Sample.iota [8; 3] 0)) = true ↔ heads_fit 2 8 3.
Proof.
  apply (adjust_qk_succeeds_iff 2 (Sample.iota [8; 3] 0) 8 3). reflexivity.
Defined.

Lemma row_source_closed_form n m r :
  0 < m → r < n * (m * 2) →
  row_source n (m * 2) r
  = r / (m * 2) * (m * 2) + 2 * (r mod m) + r mod (m * 2) / m.
Proof.
  intros Hm Hr. unfold row_source, transposed_source.
  rewrite Nat.div_mul by lia. rewrite swap12_cons.
  cbn [unravel]. rewrite swap12_cons. cbn [ravel].
  rewrite !numel_cons, numel_nil, !Nat.mul_1_r, !Nat.div_1_r.
  replace (2 * m) with (m * 2) by lia.
  assert ((r mod (m * 2)) mod m = r mod m) as ->.
  { rewrite Nat.Div0.mod_mul_r.
    rewrite (Nat.mul_comm m), Nat.Div0.mod_add. apply Nat.Div0.mod_mod. }
  lia.
Qed.

Lemma row_source_same_head (n m r : nat) :
  0 < m → r < n * (m * 2) →
  row_source n (m * 2) r / (m * 2) = r / (m * 2).
Proof.
  intros Hm Hr. rewrite row_source_closed_form by done.
  assert (r mod (m * 2) / m < 2).
  { apply Nat.Div0.div_lt_upper_bound.
    pose proof (Nat.mod_upper_bound r (m * 2)). lia. }
  pose proof (Nat.mod_upper_bound r m).
  rewrite <- Nat.add_assoc, Nat.div_add_l by lia.
  rewrite (Nat.div_small (_ + _)) by lia. lia.
Qed.

(** X3. The adjustment moves rows inside the block of a head only: every
    row of the adjusted matrix is a source row of the same head. *)
Theorem adjust_qk_stays_in_head {A} `{!Inhabited A}
    (nheads : Z) (q q' : tensor A) (rows cols r : nat) :
  shape q = [rows; cols] → wf q → adjust_qk nheads q = Ok q' → r < rows →
  let head_dim := rows / Z.to_nat nheads in
  ∃ r', r' < rows ∧ r' / head_dim = r / head_dim ∧ row q' r = row q r'.
Proof.
  intros Hs Hwf Hq Hr.
  destruct (adjust_qk_inv q nheads rows cols q' Hs Hq)
    as (n & m & -> & Hn & Hc & -> & ->).
  rewrite Nat2Z.id, (Nat.mul_comm n), Nat.div_mul by lia. cbn zeta.
  rewrite (Nat.mul_comm (m * 2) n) in *.
  exists (row_source n (m * 2) r). split; [|split].
  - by apply row_source_bijective.
  - apply row_source_same_head; lia.
  - by apply adjusted_rows.
Qed.

Lemma adjust_qk_stays_in_head_witness :
  ∃ q', adjust_qk 2 (Sample.iota [8; 2] 0) = Ok q' ∧
    let head_dim := 8 / Z.to_nat 2 in
    ∃ r', r' < 8 ∧ r' / head_dim = 5 / head_dim
          ∧ row q' 5 = row (Sample.iota [8; 2] 0) r'.
Proof.
  eexists. split; [vm_compute; reflexivity|].
  apply (adjust_qk_stays_in_head 2 (Sample.iota [8; 2] 0) _ 8 2 5).
  - reflexivity.
  - reflexivity.
  - vm_compute. reflexivity.
  - lia.
Defined.

Lemma transposed_source_pairs n c k :
  0 < c → k < n * (1 * 2) * c →
  transposed_source 1 2 [n; 1; 2; c] k = k.
Proof.
  intros Hc Hk.
  rewrite (Nat.div_mod_eq k c) at 1.
  rewrite (Nat.mul_comm c).
  assert (k / c < n * (1 * 2)) by (apply Nat.Div0.div_lt_upper_bound; lia).
  rewrite transposed_source_row by (done || by apply Nat.mod_upper_bound; lia).
  rewrite row_source_closed_form by (done || lia).
  rewrite Nat.mod_1_r, Nat.div_1_r.
  pose proof (Nat.div_mod_eq (k / c) (1 * 2)).
  pose proof (Nat.div_mod_eq k c). nia.
Qed.

(** X4. With a head dimension of 2 the adjustment returns the matrix as it
    is. *)
Theorem adjust_qk_head_dim_two {A} `{!Inhabited A}
    (nheads : Z) (q : tensor A) (rows cols : nat) :
  shape q = [rows; cols] → wf q → heads_fit nheads rows cols →
  Z.of_nat rows = (2 * nheads)%Z →
  adjust_qk nheads q = Ok q.
Proof.
  intros Hs Hwf Hfit Hrows.
  destruct Hfit as (Hn & Hc & _).
  assert (nheads = Z.of_nat (Z.to_nat nheads)) as Hnz by lia.
  assert (rows = Z.to_nat nheads * (1 * 2)) as Hr by lia.
  set (n := Z.to_nat nheads) in *. rewrite Hnz. rewrite Hr in Hs.
  rewrite (adjust_qk_ok q n 1 cols) by (done || lia).
  f_equal. apply tensor_eq; [done|].
  assert (Hlen : numel [n; 2; 1; cols] = length (data q)).
  { rewrite Hwf, Hs, !numel_cons, numel_nil. lia. }
  rewrite Hlen. symmetry. etransitivity; [|apply gather_id].
  apply gather_ext. intros k Hk. apply transposed_source_pairs; [done|].
  rewrite <- Hlen, !numel_cons, numel_nil in Hk. lia.
Qed.

Lemma adjust_qk_head_dim_two_witness :
  adjust_qk 3 (Sample.iota [6; 2] 0) = Ok (Sample.iota [6; 2] 0).
Proof.
  apply (adjust_qk_head_dim_two 3 (Sample.iota [6; 2] 0) 6 2).
  - reflexivity.
  - reflexivity.
  - split; [lia|]. split; [lia|]. exists 1%Z. reflexivity.
  - reflexivity.
Defined.

(** X5. With a head dimension of 4 the adjustment is its own inverse:
    adjusting twice gives the matrix back. *)
Theorem adjust_qk_head_dim_four {A} `{!Inhabited A}
    (nheads : Z) (q : tensor A) (rows cols : nat) :
  shape q = [rows; cols] → wf q → heads_fit nheads rows cols →
  Z.of_nat rows = (4 * nheads)%Z →
  ∃ q', adjust_qk nheads q = Ok q' ∧ adjust_qk nheads q' = Ok q.
Proof.
  intros Hs Hwf Hfit Hrows.
  destruct Hfit as (Hn & Hc & _).
  assert (nheads = Z.of_nat (Z.to_nat nheads)) as Hnz by lia.
  assert (rows = Z.to_nat nheads * (2 * 2)) as Hr by lia.
  set (n := Z.to_nat nheads) in *. rewrite Hnz. rewrite Hr in Hs.
  eexists. split; [by apply (adjust_qk_ok q n 2 cols); (done || lia)|].
  rewrite (adjust_qk_ok _ n 2 cols) by (done || lia). cbn [data].
  f_equal. apply tensor_eq; [done|].
  assert (Hlen : numel [n; 2; 2; cols] = length (data q)).
  { rewrite Hwf, Hs, !numel_cons, numel_nil. lia. }
  rewrite gather_gather
    by (intros k Hk; by apply (transposed_source_lt [n; 2; 2; cols])).
  rewrite Hlen. symmetry. etransitivity; [|apply gather_id].
  apply gather_ext. intros k Hk.
  apply (transposed_source_inverse [n; 2; 2; cols]). by rewrite Hlen.
Qed.

Lemma adjust_qk_head_dim_four_witness :
  ∃ q', adjust_qk 2 (Sample.iota [8; 3] 0) = Ok q'
        ∧ adjust_qk 2 q' = Ok (Sample.iota [8; 3] 0).
Proof.
  apply (adjust_qk_head_dim_four 2 (Sample.iota [8; 3] 0) 8 3).
  - reflexivity.
  - reflexivity.
  - split; [lia|]. split; [lia|]. exists 2%Z. reflexivity.
  - reflexivity.
Defined.


(** X2. Row [r] of the adjusted matrix is the source row
    [(r / hd) * hd + 2 * (r mod (hd/2)) + (r mod hd) / (hd/2)], [hd] being the
    head dimension [rows / nheads]: the first half of a head takes the even
    rows of the head, the second half the odd ones. *)
Theorem adjust_qk_row_formula {A} `{!Inhabited A}
    (nheads : Z) (q q' : tensor A) (rows cols r : nat) :
  shape q = [rows; cols] → wf q → adjust_qk nheads q = Ok q' → r < rows →
  let head_dim := rows / Z.to_nat nheads in
  row q' r
  = row q (r / head_dim * head_dim + 2 * (r mod (head_dim / 2))
           + r mod head_dim / (head_dim / 2)).
Proof.
  intros Hs Hwf Hq Hr.
  destruct (adjust_qk_inv q nheads rows cols q' Hs Hq)
    as (n & m & -> & Hn & Hc & -> & ->).
  rewrite Nat2Z.id, (Nat.mul_comm n), Nat.div_mul by lia. cbn zeta.
  rewrite Nat.div_mul by lia.
  rewrite (Nat.mul_comm (m * 2) n) in *.
  rewrite adjusted_rows by done.
  rewrite row_source_closed_form by (done || lia). done.
Qed.

Lemma adjust_qk_row_formula_witness :
  ∃ q', adjust_qk 1 (Sample.iota [8; 2] 0) = Ok q' ∧
    let head_dim := 8 / Z.to_nat 1 in
    row q' 5
    = row (Sample.iota [8; 2] 0)
        (5 / head_dim * head_dim + 2 * (5 mod (head_dim / 2))
         + 5 mod head_dim / (head_dim / 2)).
Proof.
  eexists. split; [vm_compute; reflexivity|].
  apply (adjust_qk_row_formula 1 (Sample.iota [8; 2] 0) _ 8 2 5).
  - reflexivity.
  - reflexivity.
  - vm_compute. reflexivity.
  - lia.
Defined.

Lemma adjust_qk_error_shape {A B} `{!Inhabited A, !Inhabited B}
    (nheads : Z) (q : tensor A) (q' : tensor B) e :
  shape q' = shape q → adjust_qk nheads q = Raise e → adjust_qk nheads q' = Raise e.
Proof.
  intros Hs. unfold adjust_qk, size. rewrite Hs.
  destruct (shape q !! 1) as [c|]; [|cbn; by intros [= <-]]. rewrite !bind_Ok.
  unfold view. rewrite Hs.
  destruct (infer_size _ _) as [s|e']; [|cbn; by intros [= <-]]. rewrite !bind_Ok.
  unfold transpose. cbn [shape].
  destruct (_ && _); [|cbn; by intros [= <-]]. rewrite !bind_Ok.
  unfold reshape. cbn [shape].
  destruct (infer_size _ _) as [s'|e'']; [|cbn; by intros [= <-]].
  by rewrite !bind_Ok.
Qed.

(** X6. The adjustment only moves scalars: it commutes with any function
    applied to every scalar of the matrix, and raises the same error when it
    fails. *)
Theorem adjust_qk_commutes_with_map {A B} `{!Inhabited A, !Inhabited B}
    (f : A → B) (nheads : Z) (q : tensor A) (rows cols : nat) :
  shape q = [rows; cols] → wf q →
  adjust_qk nheads (tmap f q)
  = match adjust_qk nheads q with
    | Ok q' => Ok (tmap f q')
    | Raise e => Raise e
    end.
Proof.
  intros Hs Hwf.
  destruct (adjust_qk nheads q) as [q'|e] eqn:Hq.
  - destruct (adjust_qk_inv q nheads rows cols q' Hs Hq)
      as (n & m & -> & Hn & Hc & -> & ->).
    rewrite (adjust_qk_ok (tmap f q) n m cols) by done.
    f_equal. unfold tmap. cbn [shape data]. f_equal.
    assert (Hlen : numel [n; 2; m; cols] = length (data q)).
    { rewrite Hwf, Hs, !numel_cons, numel_nil. lia. }
    assert (Hlen' : numel [n; m; 2; cols] = length (data q)).
    { rewrite Hwf, Hs, !numel_cons, numel_nil. lia. }
    unfold gather. rewrite <- list_fmap_compose. apply list_fmap_ext.
    intros i k [-> Hi]%lookup_seq. unfold compose. cbn [Nat.add].
    apply list_lookup_total_fmap.
    rewrite <- Hlen'. apply transposed_source_lt. by rewrite Hlen', <- Hlen.
  - by apply (adjust_qk_error_shape nheads q).
Qed.

Lemma adjust_qk_commutes_with_map_witness :
  adjust_qk 1 (tmap (Z.mul 3) (Sample.iota [4; 2] 0))
  = match adjust_qk 1 (Sample.iota [4; 2] 0) with
    | Ok q' => Ok (tmap (Z.mul 3) q')
    | Raise e => Raise e
    end.
Proof.
  apply (adjust_qk_commutes_with_map (Z.mul 3) 1 (Sample.iota [4; 2] 0) 4 2);
    reflexivity.
Defined.

(** * Further properties of the translation *)

(** One step back through a bind that succeeded. *)
Ltac bind_inv H x E :=
  lazymatch type of H with
  | (?m ≫= _) = Ok _ =>
      destruct m as [x|] eqn:E; [rewrite bind_Ok in H | discriminate H]
  end.

Section Layerwise.
Context {A : Type} `{!Inhabited A}.
Implicit Types (s : Fms.layer A) (l : Oss.layer A).

Lemma copy_dst_shape (dst dst' src : tensor A) :
  shape dst = shape dst' → copy_ dst src = copy_ dst' src.
Proof. intros Hs. unfold copy_. by rewrite Hs. Qed.

(** What a successful run of the loop body went through. *)
Lemma convert_layer_Ok_inv nheads (freqs : tensor A) s l l' :
  convert_layer nheads freqs s l = Ok l' →
  ∃ q0 k0 q k,
    copy_ (Oss.q_proj l) (Fms.attn_query s) = Ok q0
    ∧ copy_ (Oss.k_proj l) (Fms.attn_key s) = Ok k0
    ∧ adjust_qk nheads q0 = Ok q
    ∧ adjust_qk nheads k0 = Ok k
    ∧ copy_ q0 q = Ok (Oss.q_proj l')
    ∧ copy_ k0 k = Ok (Oss.k_proj l')
    ∧ copy_ (Oss.v_proj l) (Fms.attn_value s) = Ok (Oss.v_proj l')
    ∧ copy_ (Oss.o_proj l) (Fms.attn_dense s) = Ok (Oss.o_proj l')
    ∧ copy_ (Oss.gate_proj l) (Fms.ff_wg s) = Ok (Oss.gate_proj l')
    ∧ copy_ (Oss.up_proj l) (Fms.ff_w1 s) = Ok (Oss.up_proj l')
    ∧ copy_ (Oss.down_proj l) (Fms.ff_w2 s) = Ok (Oss.down_proj l')
    ∧ copy_ (Oss.input_layernorm l) (Fms.ln s) = Ok (Oss.input_layernorm l')
    ∧ copy_ (Oss.post_attention_layernorm l) (Fms.ff_ln s)
      = Ok (Oss.post_attention_layernorm l')
    ∧ Oss.inv_freqs l' = Some freqs.
Proof.
  unfold convert_layer. intros H.
  bind_inv H q0 Hq0. bind_inv H k0 Hk0. bind_inv H v Hv. bind_inv H o Ho.
  bind_inv H g Hg. bind_inv H u Hu. bind_inv H d Hd. bind_inv H n1 Hn1.
  bind_inv H n2 Hn2. bind_inv H q Hq. bind_inv H q1 Hq1.
  bind_inv H k Hk. bind_inv H k1 Hk1.
  injection H as <-. cbn.
  exists q0, k0, q, k. repeat split; done.
Qed.

Lemma convert_layers_Ok_inv nheads (freqs : tensor A) src ls :
  ∀ i out,
    convert_layers nheads freqs src i ls = Ok out →
    length out = length ls
    ∧ (ls = [] ∨ i + length ls ≤ length src)
    ∧ ∀ j l', out !! j = Some l' →
        ∃ s l, src !! (i + j) = Some s ∧ ls !! j = Some l
               ∧ convert_layer nheads freqs s l = Ok l'.
Proof.
  induction ls as [|l ls IH]; intros i out H.
  - injection H as <-. split; [done|]. split; [by left|]. intros j l' Hj. done.
  - cbn [convert_layers] in H. unfold getitem in H.
    destruct (src !! i) as [s|] eqn:Hs; [rewrite bind_Ok in H|discriminate H].
    bind_inv H l1 Hl1. bind_inv H rest Hrest. injection H as <-.
    destruct (IH _ _ Hrest) as (Hlen & Hle & Hpt).
    split; [cbn; by rewrite Hlen|]. split.
    + right. apply lookup_lt_Some in Hs. cbn [length].
      destruct Hle as [->|Hle]; cbn [length]; lia.
    + intros [|j] l' Hj.
      * injection Hj as <-. exists s, l. by rewrite Nat.add_0_r.
      * destruct (Hpt j l' Hj) as (s' & l0 & Hs' & Hl0 & Hc).
        exists s', l0. split; [|done]. by rewrite Nat.add_succ_r.
Qed.

End Layerwise.

(** X7. A returned model has as many layers as the constructed target, at
    most as many as the source; its layer [i] is the loop body run on source
    layer [i] and target layer [i]; its final norm and output head are the
    source's, whatever the target's were. *)
Theorem oss_hf_model_layerwise {A} `{!Inhabited A}
    (hf_model : Fms.model A) (oss_hf_model out : Oss.model A) :
  _oss_hf_model hf_model oss_hf_model = Ok out →
  copy_ (Oss.embed_tokens oss_hf_model) (Fms.embedding hf_model)
  = Ok (Oss.embed_tokens out)
  ∧ Oss.norm out = Fms.dec_norm hf_model
  ∧ Oss.lm_head out = Fms.lm_head hf_model
  ∧ length (Oss.layers out) = length (Oss.layers oss_hf_model)
  ∧ length (Oss.layers oss_hf_model) ≤ length (Fms.layers hf_model)
  ∧ ∀ i l', Oss.layers out !! i = Some l' →
      ∃ s l, Fms.layers hf_model !! i = Some s
             ∧ Oss.layers oss_hf_model !! i = Some l
             ∧ convert_layer (Fms.nheads hf_model) (Fms.rot_emb_freqs hf_model) s l
               = Ok l'.
Proof.
  unfold _oss_hf_model. intros H.
  bind_inv H e He. bind_inv H ls Hls. injection H as <-.
  cbn [Oss.embed_tokens Oss.norm Oss.lm_head Oss.layers].
  destruct (convert_layers_Ok_inv _ _ _ _ _ _ Hls) as (Hlen & Hle & Hpt).
  do 4 (split; [done|]). split; [|exact Hpt].
  destruct Hle as [->|Hle]; cbn in *; lia.
Qed.

Lemma oss_hf_model_layerwise_witness :
  ∃ out,
    _oss_hf_model (Sample.fms 1 4 3) (Sample.oss 4 2) = Ok out
    ∧ Oss.norm out = Fms.dec_norm (Sample.fms 1 4 3)
    ∧ length (Oss.layers out) = 2.
Proof.
  eexists. split; [vm_compute; reflexivity|].
  match goal with
  | |- context [Oss.norm ?o] =>
      destruct (oss_hf_model_layerwise (Sample.fms 1 4 3) (Sample.oss 4 2) o)
        as (_ & Hn & _ & Hlen & _)
  end.
  - vm_compute. reflexivity.
  - split; [exact Hn|exact Hlen].
Defined.

Section TargetShapes.
Context {A : Type} `{!Inhabited A}.
Implicit Types (s : Fms.layer A) (l : Oss.layer A).

Lemma convert_layer_shapes nheads (freqs : tensor A) s l l' :
  convert_layer nheads freqs s l = Ok l' → layer_same_shapes l l'.
Proof.
  intros (q0 & k0 & q & k & Hq0 & Hk0 & _ & _ & Hq & Hk & Hv & Ho & Hg & Hu
          & Hd & Hn1 & Hn2 & _)%convert_layer_Ok_inv.
  apply copy_shape in Hq0, Hk0, Hq, Hk, Hv, Ho, Hg, Hu, Hd, Hn1, Hn2.
  unfold layer_same_shapes. repeat split; congruence.
Qed.

Lemma convert_layer_same_shapes nheads (freqs : tensor A) s l l' :
  layer_same_shapes l l' →
  convert_layer nheads freqs s l = convert_layer nheads freqs s l'.
Proof.
  intros (Hq & Hk & Hv & Ho & Hg & Hu & Hd & Hn1 & Hn2). unfold convert_layer.
  rewrite (copy_dst_shape _ _ _ Hq), (copy_dst_shape _ _ _ Hk),
    (copy_dst_shape _ _ _ Hv), (copy_dst_shape _ _ _ Ho),
    (copy_dst_shape _ _ _ Hg), (copy_dst_shape _ _ _ Hu),
    (copy_dst_shape _ _ _ Hd), (copy_dst_shape _ _ _ Hn1),
    (copy_dst_shape _ _ _ Hn2).
  done.
Qed.

Lemma convert_layers_same_shapes nheads (freqs : tensor A) src ls ls' :
  Forall2 layer_same_shapes ls ls' →
  ∀ i, convert_layers nheads freqs src i ls
       = convert_layers nheads freqs src i ls'.
Proof.
  induction 1 as [|l l' ls ls' Hl _ IH]; intros i; [done|].
  cbn [convert_layers].
  destruct (getitem src i) as [s|e]; [rewrite !bind_Ok|done].
  rewrite (convert_layer_same_shapes _ _ s _ _ Hl).
  destruct (convert_layer nheads freqs s l'); [rewrite !bind_Ok|done].
  by rewrite IH.
Qed.

End TargetShapes.

(** X8. The copies are in place: in a returned model the embedding and the
    nine weights of every layer have the shapes the constructed target had. *)
Theorem translation_keeps_target_shapes {A} `{!Inhabited A}
    (hf_model : Fms.model A) (oss_hf_model out : Oss.model A) :
  _oss_hf_model hf_model oss_hf_model = Ok out →
  model_same_shapes oss_hf_model out.
Proof.
  intros H. destruct (oss_hf_model_layerwise _ _ _ H)
    as (He & _ & _ & Hlen & _ & Hpt).
  split; [by apply copy_shape in He|].
  apply Forall2_same_length_lookup. split; [done|].
  intros i l l' Hl Hl'.
  destruct (Hpt i l' Hl') as (s & l0 & _ & Hl0 & Hc).
  rewrite Hl in Hl0. injection Hl0 as <-.
  by eapply convert_layer_shapes.
Qed.

Lemma translation_keeps_target_shapes_witness :
  ∃ out,
    _oss_hf_model (Sample.fms 1 4 2) (SampleTarget.oss 4 2) = Ok out
    ∧ model_same_shapes (SampleTarget.oss 4 2) out.
Proof.
  eexists. split; [vm_compute; reflexivity|].
  apply (translation_keeps_target_shapes (Sample.fms 1 4 2)).
  vm_compute. reflexivity.
Defined.

(** X9. The result does not depend on the values the target was
    constructed with: two targets of the same shapes give the same result, or
    the same error. *)
Theorem translation_ignores_target_values {A} `{!Inhabited A}
    (hf_model : Fms.model A) (oss_hf_model oss_hf_model' : Oss.model A) :
  model_same_shapes oss_hf_model oss_hf_model' →
  _oss_hf_model hf_model oss_hf_model = _oss_hf_model hf_model oss_hf_model'.
Proof.
  intros [He Hls]. unfold _oss_hf_model.
  by rewrite (copy_dst_shape _ _ _ He),
    (convert_layers_same_shapes _ _ _ _ _ Hls).
Qed.

Lemma translation_ignores_target_values_witness :
  _oss_hf_model (Sample.fms 1 4 2) (Sample.oss 4 2)
  = _oss_hf_model (Sample.fms 1 4 2) (SampleTarget.oss 4 2).
Proof.
  apply (translation_ignores_target_values (Sample.fms 1 4 2)).
  split; [reflexivity|].
  cbn [Sample.oss SampleTarget.oss Oss.layers fmap list_fmap seq replicate].
  repeat (apply List.Forall2_cons; [|]); [..|apply List.Forall2_nil];
    (unfold layer_same_shapes;
     repeat lazymatch goal with |- _ ∧ _ => split end; reflexivity).
Defined.

(** X10. A model is returned only if the head count fits every q and k
    matrix of the target: in particular never with a head count of zero or
    less, or a q or k matrix without columns, in a target with a layer. *)
Theorem translation_requires_fitting_heads {A} `{!Inhabited A}
    (hf_model : Fms.model A) (oss_hf_model out : Oss.model A)
    (i : nat) (l : Oss.layer A) (rows cols : nat) :
  _oss_hf_model hf_model oss_hf_model = Ok out →
  Oss.layers oss_hf_model !! i = Some l →
  shape (Oss.q_proj l) = [rows; cols] ∨ shape (Oss.k_proj l) = [rows; cols] →
  heads_fit (Fms.nheads hf_model) rows cols.
Proof.
  intros H Hl Hshape.
  destruct (oss_hf_model_layerwise _ _ _ H) as (_ & _ & _ & Hlen & _ & Hpt).
  destruct (lookup_lt_is_Some_2 (Oss.layers out) i) as [l' Hl'].
  { rewrite Hlen. by eapply lookup_lt_Some. }
  destruct (Hpt i l' Hl') as (s & l0 & _ & Hl0 & Hc).
  rewrite Hl in Hl0. injection Hl0 as <-.
  apply convert_layer_Ok_inv in Hc
    as (q0 & k0 & q & k & Hq0 & Hk0 & Hq & Hk & _).
  apply copy_shape in Hq0, Hk0.
  destruct Hshape as [Hs|Hs]; rewrite Hs in *.
  - destruct (adjust_qk_inv q0 _ rows cols q Hq0 Hq)
      as (n & m & -> & Hn & Hc & -> & _).
    split; [lia|]. split; [done|]. exists (Z.of_nat m). lia.
  - destruct (adjust_qk_inv k0 _ rows cols k Hk0 Hk)
      as (n & m & -> & Hn & Hc & -> & _).
    split; [lia|]. split; [done|]. exists (Z.of_nat m). lia.
Qed.

Lemma translation_requires_fitting_heads_witness : heads_fit 1 4 2.
Proof.
  assert (∃ out, _oss_hf_model (Sample.fms 1 4 2) (Sample.oss 4 2) = Ok out)
    as [out Hout] by (eexists; vm_compute; reflexivity).
  apply (translation_requires_fitting_heads (Sample.fms 1 4 2) (Sample.oss 4 2)
           out 1 (Sample.oss_layer 4) 4 2 Hout).
  - reflexivity.
  - left. reflexivity.
Defined.

(** * Further properties of the configuration *)

Module ConfigLookups.
Import LLaMAHFConfig.

Ltac among :=
  repeat first [apply list_elem_of_here | apply list_elem_of_further].

Lemma init_base args k :
  k ∈ ["pad_token_id"; "eos_token_id"; "bos_token_id"; "is_decoder"] →
  __init__ args !! k = Some (arg args k).
Proof.
  intros Hk. unfold __init__, PretrainedConfig_init. cbn [list_to_map foldr fst snd].
  repeat (apply elem_of_cons in Hk as [->|Hk]); [..|by apply elem_of_nil in Hk];
    (rewrite lookup_union, ConfigFacts.lookup_foldr_delete_elem
       by (unfold popped; among);
     ConfigFacts.lookups; reflexivity).
Qed.

Lemma init_model_type args :
  __init__ args !! "model_type" = Some (VStr "llama_hf").
Proof.
  unfold __init__, own_attributes. cbn [foldl list_to_map foldr fst snd].
  rewrite ConfigFacts.pretrained_init_other by ConfigFacts.not_among.
  ConfigFacts.lookups. by rewrite lookup_singleton_eq.
Qed.

Lemma init_other args k :
  k ∉ attribute_names → __init__ args !! k = None.
Proof.
  intros Hk. unfold attribute_names, own_attributes, popped in Hk.
  cbn [app] in Hk. rewrite !not_elem_of_cons in Hk. destruct_and!.
  unfold __init__, own_attributes. cbn [foldl list_to_map foldr fst snd].
  rewrite ConfigFacts.pretrained_init_other
    by (unfold popped; rewrite !not_elem_of_cons; repeat split; (done || apply not_elem_of_nil)).
  rewrite !lookup_insert_ne by done.
  by rewrite lookup_empty, lookup_singleton_ne.
Qed.

Lemma init_is_Some args k :
  is_Some (__init__ args !! k) ↔ k ∈ attribute_names.
Proof.
  split.
  - intros Hsome. destruct (decide (k ∈ attribute_names)) as [|Hno]; [done|].
    rewrite (init_other _ _ Hno) in Hsome. by destruct Hsome.
  - intros Hk. unfold attribute_names in Hk.
    apply elem_of_cons in Hk as [->|Hk]; [by rewrite init_model_type|].
    apply elem_of_app in Hk as [Hk|Hk]; [by rewrite ConfigFacts.init_own|].
    unfold popped in Hk.
    apply elem_of_cons in Hk as [->|Hk]; [by rewrite init_base by among|].
    apply elem_of_cons in Hk as [->|Hk];
      [by rewrite ConfigFacts.init_tie_word_embeddings|].
    repeat (apply elem_of_cons in Hk as [->|Hk]); [..|by apply elem_of_nil in Hk];
      by rewrite init_base by among.
Qed.

Lemma from_fms_config_Ok_inv config_dict hf_kwargs cfg :
  from_fms_config config_dict hf_kwargs = Ok cfg →
  ∃ v, config_dict !! "pad_id" = Some v
       ∧ cfg = from_dict (<["pad_token_id" := v]> (delete "pad_id" config_dict))
                 hf_kwargs.
Proof.
  unfold from_fms_config. intros H.
  destruct (config_dict !! "pad_id") as [v|] eqn:Hv.
  - rewrite (ConfigFacts.renamed_Ok _ _ Hv), bind_Ok in H.
    exists v. split; [done|congruence].
  - rewrite (ConfigFacts.renamed_Raise _ Hv) in H. discriminate H.
Qed.

End ConfigLookups.



(** X12. A parameter of the constructor, other than [pad_token_id], that is
    in neither the source dictionary nor the keyword arguments takes the
    default of the constructor. *)
Theorem from_fms_config_defaults
    (config_dict hf_kwargs cfg : gmap string pyval) (k : string) :
  LLaMAHFConfig.from_fms_config config_dict hf_kwargs = Ok cfg →
  k ∈ parameter_names → k ≠ "pad_token_id" →
  config_dict !! k = None → hf_kwargs !! k = None →
  is_Some (cfg !! k) ∧ cfg !! k = LLaMAHFConfig.defaults !! k.
Proof.
  intros (v & _ & ->)%ConfigLookups.from_fms_config_Ok_inv Hk Hne Hd Hkw.
  rewrite ConfigFacts.lookup_from_dict_absent by done.
  assert (LLaMAHFConfig.__init__
            (<["pad_token_id" := v]> (delete "pad_id" config_dict)) !! k
          = Some (default VNone (LLaMAHFConfig.defaults !! k))) as ->.
  { unfold parameter_names in Hk. apply elem_of_app in Hk as [Hk|Hk].
    - rewrite ConfigFacts.init_own by done. unfold LLaMAHFConfig.arg.
      rewrite lookup_insert_ne by congruence.
      destruct (decide (k = "pad_id")) as [->|Hne'].
      + rewrite lookup_delete_eq. by destruct (LLaMAHFConfig.defaults !! _).
      + rewrite lookup_delete_ne, Hd by congruence.
        by destruct (LLaMAHFConfig.defaults !! _).
    - rewrite ConfigLookups.init_base by done. unfold LLaMAHFConfig.arg.
      rewrite lookup_insert_ne by congruence.
      destruct (decide (k = "pad_id")) as [->|Hne'].
      + rewrite lookup_delete_eq. by destruct (LLaMAHFConfig.defaults !! _).
      + rewrite lookup_delete_ne, Hd by congruence.
        by destruct (LLaMAHFConfig.defaults !! _). }
  unfold parameter_names, LLaMAHFConfig.own_attributes in Hk. cbn [app] in Hk.
  repeat (apply elem_of_cons in Hk as [->|Hk]); [..|by apply elem_of_nil in Hk];
    (split; [by eexists|vm_compute; reflexivity]).
Qed.

Lemma from_fms_config_defaults_witness :
  ∃ cfg,
    LLaMAHFConfig.from_fms_config Sample.fms_config ∅ = Ok cfg
    ∧ is_Some (cfg !! "use_cache")
    ∧ cfg !! "use_cache" = LLaMAHFConfig.defaults !! "use_cache".
Proof.
  assert (Hpad : Sample.fms_config !! "pad_id" = Some (VInt 0))
    by (vm_compute; reflexivity).
  eexists. split.
  - unfold LLaMAHFConfig.from_fms_config.
    rewrite (ConfigFacts.renamed_Ok _ _ Hpad), bind_Ok. reflexivity.
  - apply (from_fms_config_defaults Sample.fms_config ∅).
    + unfold LLaMAHFConfig.from_fms_config.
      rewrite (ConfigFacts.renamed_Ok _ _ Hpad), bind_Ok. reflexivity.
    + unfold parameter_names, LLaMAHFConfig.own_attributes. cbn [app].
      ConfigLookups.among.
    + discriminate.
    + vm_compute. reflexivity.
    + apply lookup_empty.
Defined.

(** X13. A keyword argument of [from_fms_config] that names an attribute of
    the configuration replaces it: it wins over the source's field, over the
    renamed [pad_id], and over the [tie_word_embeddings] the constructor
    fixes. *)
Theorem from_fms_config_kwargs_override
    (config_dict hf_kwargs cfg : gmap string pyval) (k : string) (v : pyval) :
  LLaMAHFConfig.from_fms_config config_dict hf_kwargs = Ok cfg →
  k ∈ attribute_names → hf_kwargs !! k = Some v →
  cfg !! k = Some v.
Proof.
  intros (x & _ & ->)%ConfigLookups.from_fms_config_Ok_inv Hk Hkw.
  rewrite ConfigFacts.lookup_from_dict.
  destruct (proj2 (ConfigLookups.init_is_Some
                     (<["pad_token_id" := x]> (delete "pad_id" config_dict)) k) Hk)
    as [cur ->].
  cbn [mbind option_bind]. rewrite ConfigFacts.lookup_foldr_delete, Hkw; [done|].
  intros Hpop. unfold LLaMAHFConfig.from_dict_popped in Hpop.
  unfold attribute_names, LLaMAHFConfig.own_attributes, LLaMAHFConfig.popped in Hk.
  cbn [app] in Hk.
  repeat (apply elem_of_cons in Hk as [->|Hk]); [..|by apply elem_of_nil in Hk];
    revert Hpop; ConfigFacts.not_among.
Qed.

Lemma from_fms_config_kwargs_override_witness :
  ∃ cfg,
    LLaMAHFConfig.from_fms_config Sample.fms_config
      (list_to_map [("tie_word_embeddings", VBool true); ("pad_token_id", VInt 5)])
    = Ok cfg
    ∧ cfg !! "tie_word_embeddings" = Some (VBool true).
Proof.
  assert (Hpad : Sample.fms_config !! "pad_id" = Some (VInt 0))
    by (vm_compute; reflexivity).
  eexists. split.
  - unfold LLaMAHFConfig.from_fms_config.
    rewrite (ConfigFacts.renamed_Ok _ _ Hpad), bind_Ok. reflexivity.
  - apply (from_fms_config_kwargs_override Sample.fms_config
             (list_to_map [("tie_word_embeddings", VBool true);
                           ("pad_token_id", VInt 5)])).
    + unfold LLaMAHFConfig.from_fms_config.
      rewrite (ConfigFacts.renamed_Ok _ _ Hpad), bind_Ok. reflexivity.
    + unfold attribute_names, LLaMAHFConfig.own_attributes, LLaMAHFConfig.popped.
      cbn [app]. ConfigLookups.among.
    + vm_compute. reflexivity.
Defined.

(** X14. [from_fms_config] reads the source's [pad_id] and the fields named
    like the constructor's parameters only: source dictionaries that agree on
    these give the same result; a [pad_token_id] or [tie_word_embeddings] of
    the source is ignored. *)
Theorem from_fms_config_reads_source_fields
    (config_dict config_dict' hf_kwargs : gmap string pyval) :
  (∀ k, k ∈ source_fields → config_dict !! k = config_dict' !! k) →
  LLaMAHFConfig.from_fms_config config_dict hf_kwargs
  = LLaMAHFConfig.from_fms_config config_dict' hf_kwargs.
Proof.
  intros Hsame. unfold LLaMAHFConfig.from_fms_config.
  assert (Hpad : config_dict !! "pad_id" = config_dict' !! "pad_id")
    by (apply Hsame; unfold source_fields; ConfigLookups.among).
  destruct (config_dict !! "pad_id") as [v|] eqn:Hv; symmetry in Hpad.
  - rewrite (ConfigFacts.renamed_Ok _ _ Hv), (ConfigFacts.renamed_Ok _ _ Hpad).
    rewrite !bind_Ok. f_equal. unfold LLaMAHFConfig.from_dict. f_equal.
    set (d := <["pad_token_id" := v]> (delete "pad_id" config_dict)).
    set (d' := <["pad_token_id" := v]> (delete "pad_id" config_dict')).
    assert (Harg : ∀ k, k ∈ parameter_names →
              LLaMAHFConfig.arg d k = LLaMAHFConfig.arg d' k).
    { intros k Hk. unfold LLaMAHFConfig.arg, d, d'. f_equal. f_equal.
      destruct (decide (k = "pad_token_id")) as [->|Hne];
        [by rewrite !lookup_insert_eq|].
      rewrite !lookup_insert_ne by done.
      destruct (decide (k = "pad_id")) as [->|Hne'];
        [by rewrite !lookup_delete_eq|].
      rewrite !lookup_delete_ne by done. apply Hsame.
      unfold source_fields. apply list_elem_of_further.
      unfold parameter_names in Hk. apply elem_of_app in Hk as [Hk|Hk];
        apply elem_of_app; [by left|right].
      apply elem_of_cons in Hk as [->|Hk]; done. }
    clearbody d d'.
    unfold LLaMAHFConfig.__init__, LLaMAHFConfig.own_attributes. cbn [foldl].
    repeat match goal with
           | |- context [LLaMAHFConfig.arg d ?k] =>
               rewrite (Harg k)
                 by (unfold parameter_names, LLaMAHFConfig.own_attributes;
                     cbn [app]; ConfigLookups.among)
           end.
    reflexivity.
  - by rewrite (ConfigFacts.renamed_Raise _ Hv), (ConfigFacts.renamed_Raise _ Hpad).
Qed.

Lemma from_fms_config_reads_source_fields_witness :
  LLaMAHFConfig.from_fms_config Sample.fms_config ∅
  = LLaMAHFConfig.from_fms_config
      (<["ntk_scaling" := VBool true]>
         (<["tie_word_embeddings" := VBool true]>
            (<["pad_token_id" := VInt 9]> Sample.fms_config))) ∅.
Proof.
  apply from_fms_config_reads_source_fields.
  intros k Hk. unfold source_fields, LLaMAHFConfig.own_attributes in Hk.
  cbn [app] in Hk.
  repeat (apply elem_of_cons in Hk as [->|Hk]); [..|by apply elem_of_nil in Hk];
    by rewrite !lookup_insert_ne by discriminate.
Defined.

(** * Further properties of the padding *)



